(** * Log4MCP example client: a shallow embedding of [example_client.py]

    The client speaks JSON-RPC 2.0 over one TCP socket.  The development
    has three layers:

    - the Python values and library routines the client relies on
      ([str], [bytes], [json.dumps], [json.loads], [socket]);
    - the class [Log4MCPClient] itself, method by method, in a state and
      exception monad over the client object and the outside world;
    - the properties of the request/response protocol layer.

    Scope of the library layer.  Python [int] is [Z], [str] is a list of
    code points, [bytes] a list of [Byte.byte].  What the interpreter
    brings and the source does not fix is a parameter of the development:
    the type of [float] with the text [json.dumps] writes for a float and
    the float that [float(text)] yields; the limit on the digits of an
    [int] numeral ([sys.get_int_max_str_digits()]); and the number of
    nested containers that [json.dumps] and [json.loads] can enter before
    the recursion limit is hit at their call sites.  Memory exhaustion is
    not modelled, and a blocking socket operation is assumed to return. *)

From Stdlib Require Import List ZArith NArith Bool Lia.
From Stdlib Require Import Strings.String Strings.Ascii Strings.Byte.
From Stdlib Require Import Decimal DecimalZ DecimalN DecimalPos.
From Stdlib Require DecimalFacts.
Import ListNotations.

(** ** Python strings and bytes *)

Module Py.

(** A [str] is a sequence of Unicode code points. *)
Definition codepoint := N.
Definition str := list codepoint.
Definition bytes := list byte.

Definition ch (a : ascii) : codepoint := N_of_ascii a.

(** The line feed. *)
Definition LF : codepoint := 10%N.

(** A string literal of the source, as a Python [str]. *)
Definition lit (s : string) : str := List.map N_of_ascii (list_ascii_of_string s).

(** The same literal as [bytes] (ASCII only). *)
Definition blit (s : string) : bytes := list_byte_of_string s.

Definition str_eqb (a b : str) : bool :=
  if list_eq_dec N.eq_dec a b then true else false.

(** The decimal numeral of an [int], with a leading minus sign for
    negative numbers: what [str(n)] gives when it returns. *)
Fixpoint uint_chars (d : Decimal.uint) : str :=
  match d with
  | Nil => []
  | D0 d => 48%N :: uint_chars d
  | D1 d => 49%N :: uint_chars d
  | D2 d => 50%N :: uint_chars d
  | D3 d => 51%N :: uint_chars d
  | D4 d => 52%N :: uint_chars d
  | D5 d => 53%N :: uint_chars d
  | D6 d => 54%N :: uint_chars d
  | D7 d => 55%N :: uint_chars d
  | D8 d => 56%N :: uint_chars d
  | D9 d => 57%N :: uint_chars d
  end.

Definition int_chars (d : Decimal.int) : str :=
  match d with
  | Pos u => uint_chars u
  | Neg u => ch "-" :: uint_chars u
  end.

Definition str_of_int (z : Z) : str := int_chars (Z.to_int z).

(** The number of digits of that numeral, the sign not counted. *)
Definition int_digits (z : Z) : nat :=
  match Z.to_int z with
  | Pos u => Decimal.nb_digits u
  | Neg u => Decimal.nb_digits u
  end.

(** [bytes.decode()]: strict UTF-8.  [None] stands for
    [UnicodeDecodeError].  Overlong forms, surrogates and code points
    above U+10FFFF are rejected. *)
Definition is_cont (b : N) : bool := ((128 <=? b) && (b <=? 191))%N.

Fixpoint utf8_decode_N (bs : list N) : option str :=
  match bs with
  | [] => Some []
  | b0 :: r0 =>
    if (b0 <? 128)%N then option_map (cons b0) (utf8_decode_N r0)
    else if ((194 <=? b0) && (b0 <=? 223))%N then
      match r0 with
      | b1 :: r1 =>
        if is_cont b1
        then option_map (cons ((b0 - 192) * 64 + (b1 - 128))%N) (utf8_decode_N r1)
        else None
      | _ => None
      end
    else if ((224 <=? b0) && (b0 <=? 239))%N then
      match r0 with
      | b1 :: b2 :: r2 =>
        let lo := if (b0 =? 224)%N then 160%N else 128%N in
        let hi := if (b0 =? 237)%N then 159%N else 191%N in
        if (lo <=? b1)%N && (b1 <=? hi)%N && is_cont b2
        then option_map
               (cons ((b0 - 224) * 4096 + (b1 - 128) * 64 + (b2 - 128))%N)
               (utf8_decode_N r2)
        else None
      | _ => None
      end
    else if ((240 <=? b0) && (b0 <=? 244))%N then
      match r0 with
      | b1 :: b2 :: b3 :: r3 =>
        let lo := if (b0 =? 240)%N then 144%N else 128%N in
        let hi := if (b0 =? 244)%N then 143%N else 191%N in
        if (lo <=? b1)%N && (b1 <=? hi)%N && is_cont b2 && is_cont b3
        then option_map
               (cons ((b0 - 240) * 262144 + (b1 - 128) * 4096
                      + (b2 - 128) * 64 + (b3 - 128))%N)
               (utf8_decode_N r3)
        else None
      | _ => None
      end
    else None
  end.

Definition decode (bs : bytes) : option str :=
  utf8_decode_N (List.map Byte.to_N bs).

(** [str.encode()]: strict UTF-8.  [None] stands for
    [UnicodeEncodeError] (a surrogate, which UTF-8 cannot carry). *)
Definition byte_of_N (n : N) : byte :=
  match Byte.of_N n with Some b => b | None => x00 end.

Definition utf8_encode_char (c : codepoint) : option bytes :=
  if (c <? 128)%N then Some [byte_of_N c]
  else if (c <? 2048)%N then
    Some [byte_of_N (192 + c / 64); byte_of_N (128 + c mod 64)]
  else if ((55296 <=? c) && (c <=? 57343))%N then None
  else if (c <? 65536)%N then
    Some [byte_of_N (224 + c / 4096); byte_of_N (128 + (c / 64) mod 64);
          byte_of_N (128 + c mod 64)]
  else
    Some [byte_of_N (240 + (c / 262144) mod 8); byte_of_N (128 + (c / 4096) mod 64);
          byte_of_N (128 + (c / 64) mod 64); byte_of_N (128 + c mod 64)].

(** Literals written with ['] where the text has a double quote. *)
Definition requote (c : codepoint) : codepoint := if (c =? 39)%N then 34%N else c.
Definition qlit (s : string) : str := List.map requote (lit s).
Definition qblit (s : string) : bytes := List.map byte_of_N (qlit s).

Fixpoint encode (s : str) : option bytes :=
  match s with
  | [] => Some []
  | c :: r =>
    match utf8_encode_char c, encode r with
    | Some bs, Some rest => Some (bs ++ rest)
    | _, _ => None
    end
  end.

(** Printable ASCII, and ASCII. *)
Definition printable (c : codepoint) : Prop := (32 <= c <= 126)%N.

Definition ascii7 (c : codepoint) : Prop := (c < 128)%N.

End Py.

Import Py.

(** ** Exceptions, the socket and the outside world *)

Module Net.

(** The exceptions that can cross the client: all are subclasses of
    [Exception].  [JSONDecodeError] is the subclass of [ValueError] that
    [json] raises for text that is not a JSON document; [ValueError]
    stands for a plain one. *)
Inductive exn :=
| Exception (msg : string)
| OSError (errno : Z)
| OverflowError
| UnicodeError
| UnicodeEncodeError
| UnicodeDecodeError
| ValueError
| RecursionError
| JSONDecodeError.

Inductive result (A : Type) :=
| Return (a : A)
| Raise (e : exn).
Arguments Return {A} a.
Arguments Raise {A} e.

Definition result_bind {A B : Type} (r : result A) (k : A -> result B) : result B :=
  match r with
  | Return a => k a
  | Raise e => Raise e
  end.

(** The results of a function on the items of a list, in order; the
    first exception ends it. *)
Fixpoint map_result {A B : Type} (f : A -> result B) (l : list A) : result (list B) :=
  match l with
  | [] => Return []
  | x :: r =>
    match f x with
    | Raise e => Raise e
    | Return y =>
      match map_result f r with
      | Raise e => Raise e
      | Return ys => Return (y :: ys)
      end
    end
  end.

Definition EBADF : Z := 9.

(** What the operating system and the peer do.  The operations on the
    connection are numbered in the order they happen; the answer to an
    operation may depend on its number and on its argument. *)
Inductive send_outcome :=
| Sent (n : nat)
| SendFails (errno : Z).

Inductive recv_outcome :=
| Received (data : bytes)
| RecvFails (errno : Z).

(** [on_address] is what turning [(host, port)] into a socket address
    does before the range of the port is looked at: nothing, or the
    exception it raises (a host name that cannot be encoded or resolved, a
    port that is no C [int]). *)
Record network := {
  on_socket : option Z;
  on_address : str -> Z -> option exn;
  on_connect : str -> Z -> option Z;
  on_send : nat -> bytes -> send_outcome;
  on_recv : nat -> recv_outcome;
  on_close : nat -> option Z
}.

(** What crossed the socket interface, oldest first. *)
Inductive event :=
| EvConnect (host : str) (port : Z) (ok : bool)
| EvSend (data : bytes) (written : option nat)
| EvRecv (bufsize : nat) (got : option bytes)
| EvClose (ok : bool).

(** The lines printed to [sys.stderr], oldest first. *)
Inductive diag :=
| DiagConnected (host : str) (port : Z)
| DiagConnectError (host : str) (port : Z) (e : exn)
| DiagRequest (request_json : str)
| DiagResponse (response_json : str)
| DiagSendError (e : exn)
| DiagDisconnected
| DiagCloseError (e : exn).

Record World := {
  net : network;
  clock : nat;
  wire : list event;
  stderr : list diag
}.

Definition happen (ev : event) (w : World) : World :=
  {| net := net w; clock := S (clock w); wire := wire w ++ [ev]; stderr := stderr w |}.

Definition print (d : diag) (w : World) : World :=
  {| net := net w; clock := clock w; wire := wire w; stderr := stderr w ++ [d] |}.

(** A socket object: its descriptor is open or has been released. *)
Inductive sock :=
| SockOpen
| SockClosed.

(** [socket.socket(AF_INET, SOCK_STREAM)] *)
Definition socket_socket (w : World) : result sock * World :=
  match on_socket (net w) with
  | None => (Return SockOpen, w)
  | Some e => (Raise (OSError e), w)
  end.

(** [sock.connect((host, port))]: the address is built first, and a port
    outside 0..65535 is refused with [OverflowError] before the
    connection is attempted. *)
Definition socket_connect (s : sock) (host : str) (port : Z) (w : World)
  : result unit * World :=
  match s with
  | SockClosed => (Raise (OSError EBADF), w)
  | SockOpen =>
    match on_address (net w) host port with
    | Some e => (Raise e, w)
    | None =>
      if ((port <? 0) || (65535 <? port))%Z then (Raise OverflowError, w)
      else
        match on_connect (net w) host port with
        | None => (Return tt, happen (EvConnect host port true) w)
        | Some e => (Raise (OSError e), happen (EvConnect host port false) w)
        end
    end
  end.

(** [sock.send(data)]: one write; the result is the number of bytes that
    were taken, which may be fewer than [len(data)]. *)
Definition socket_send (s : sock) (data : bytes) (w : World) : result nat * World :=
  match s with
  | SockClosed => (Raise (OSError EBADF), w)
  | SockOpen =>
    match on_send (net w) (clock w) data with
    | Sent k =>
      let n := Nat.min k (List.length data) in
      (Return n, happen (EvSend data (Some n)) w)
    | SendFails e => (Raise (OSError e), happen (EvSend data None) w)
    end
  end.

(** [sock.recv(bufsize)]: one read of at most [bufsize] bytes; no bytes
    means that the peer has closed the connection. *)
Definition socket_recv (s : sock) (bufsize : nat) (w : World) : result bytes * World :=
  match s with
  | SockClosed => (Raise (OSError EBADF), w)
  | SockOpen =>
    match on_recv (net w) (clock w) with
    | Received data =>
      let got := firstn bufsize data in
      (Return got, happen (EvRecv bufsize (Some got)) w)
    | RecvFails e => (Raise (OSError e), happen (EvRecv bufsize None) w)
    end
  end.

(** [sock.close()]: releases the descriptor, also when the release
    reports an error; on a closed socket it does nothing. *)
Definition socket_close (s : sock) (w : World) : result unit * sock * World :=
  match s with
  | SockClosed => (Return tt, SockClosed, w)
  | SockOpen =>
    match on_close (net w) (clock w) with
    | None => (Return tt, SockClosed, happen (EvClose true) w)
    | Some e => (Raise (OSError e), SockClosed, happen (EvClose false) w)
    end
  end.

End Net.

Import Net.

(** ** An interpreter for the examples

    The limits are the defaults of CPython 3.11: 4300 digits in an [int]
    numeral, and a recursion limit of 1000, of which the frames of the
    caller leave 990 to the [json] module.  Floats are not told apart, as
    no example holds one. *)

Definition example_float : Type := unit.
Definition example_floatstr (f : example_float) : str := lit "0.0".
Definition example_parse_float (numeral : str) : example_float := tt.
Definition example_digits : nat := 4300.
Definition example_depth : nat := 990.

Section Interpreter.

(** ** What the interpreter brings *)

(** The type of Python's [float]; the text that [json.dumps] writes for a
    float ([float.__repr__], or [NaN], [Infinity], [-Infinity]); and
    [float(text)], the float nearest to a numeral. *)
Variable pyfloat : Type.
Variable floatstr : pyfloat -> str.
Variable parse_float : str -> pyfloat.

(** [sys.get_int_max_str_digits()]: the most digits that a conversion
    between [int] and [str] accepts; 0 when there is no limit. *)
Variable int_max_str_digits : nat.

(** How many nested lists and dicts [json.dumps], respectively
    [json.loads], can enter where [_send_request] calls it, before the
    recursion limit of the interpreter is hit. *)
Variable dumps_depth : nat.
Variable loads_depth : nat.

(** The text of a float is printable ASCII. *)
Hypothesis floatstr_printable : forall f, Forall printable (floatstr f).

(** ** The [json] module *)

(** The Python values that [json] maps to and from.  A [dict] keeps
    insertion order, so it is an association list; the keys are [str]. *)
#[warnings="-register-all"]
Inductive pyval :=
| PyNone
| PyBool (b : bool)
| PyInt (z : Z)
| PyFloat (f : pyfloat)
| PyStr (s : str)
| PyList (l : list pyval)
| PyDict (d : list (str * pyval)).

(** [d[k] = v] on a [dict]: an existing key keeps its place and takes the
    new value, a new key goes last. *)
Fixpoint dict_set (d : list (str * pyval)) (k : str) (v : pyval) : list (str * pyval) :=
  match d with
  | [] => [(k, v)]
  | (k', v') :: r =>
    if str_eqb k' k then (k', v) :: r else (k', v') :: dict_set r k v
  end.


Definition dict_keys (d : list (str * pyval)) : list str := List.map fst d.

(** A conversion between [int] and [str] refuses a numeral of [n] digits
    when there is a limit and [n] is above it. *)
Definition exceeds_digits (n : nat) : bool :=
  (0 <? int_max_str_digits) && (int_max_str_digits <? n).

(** [str(n)] and [repr(n)] for an [int]: [ValueError] beyond the limit. *)
Definition int_repr (z : Z) : result str :=
  if exceeds_digits (int_digits z) then Raise ValueError else Return (str_of_int z).

(** *** [json.dumps] with its default arguments
    ([ensure_ascii=True], separators [", "] and [": "], no indent). *)

Definition hex_digit (n : N) : codepoint :=
  if (n <? 10)%N then (48 + n)%N else (87 + n)%N.

Definition hex4 (n : N) : str :=
  [hex_digit ((n / 4096) mod 16); hex_digit ((n / 256) mod 16);
   hex_digit ((n / 16) mod 16); hex_digit (n mod 16)].

Definition u_escape (n : N) : str := ch "\" :: ch "u" :: hex4 n.

(** One character of [encode_basestring_ascii]: the two-character
    escapes, printable ASCII as it is, [\uXXXX] otherwise, with a
    surrogate pair above the basic plane. *)
Definition escape_char (c : codepoint) : str :=
  if (c =? 92)%N then [ch "\"; ch "\"]
  else if (c =? 34)%N then [ch "\"; 34%N]
  else if (c =? 10)%N then [ch "\"; ch "n"]
  else if (c =? 13)%N then [ch "\"; ch "r"]
  else if (c =? 9)%N then [ch "\"; ch "t"]
  else if (c =? 8)%N then [ch "\"; ch "b"]
  else if (c =? 12)%N then [ch "\"; ch "f"]
  else if ((32 <=? c) && (c <=? 126))%N then [c]
  else if (c <? 65536)%N then u_escape c
  else
    let n := (c - 65536)%N in
    u_escape (N.lor 55296 (N.land (N.shiftr n 10) 1023))
    ++ u_escape (N.lor 56320 (N.land n 1023)).

Definition encode_basestring_ascii (s : str) : str :=
  34%N :: flat_map escape_char s ++ [34%N].

(** [', '.join(items)] *)
Fixpoint join (sep : str) (items : list str) : str :=
  match items with
  | [] => []
  | [x] => x
  | x :: r => x ++ sep ++ join sep r
  end.

(** The encoder goes through the value depth first and left to right;
    the first exception ends it.  Entering a list or a dict takes one
    level of [depth], also when it is empty; with none left the encoder
    raises [RecursionError].  An [int] is written by [repr]. *)
Fixpoint dumps (depth : nat) (v : pyval) {struct v} : result str :=
  match v with
  | PyNone => Return (lit "null")
  | PyBool true => Return (lit "true")
  | PyBool false => Return (lit "false")
  | PyInt z => int_repr z
  | PyFloat f => Return (floatstr f)
  | PyStr s => Return (encode_basestring_ascii s)
  | PyList l =>
    match depth with
    | O => Raise RecursionError
    | S depth' =>
      match map_result (dumps depth') l with
      | Raise e => Raise e
      | Return items => Return (ch "[" :: join (lit ", ") items ++ [ch "]"])
      end
    end
  | PyDict d =>
    match depth with
    | O => Raise RecursionError
    | S depth' =>
      match map_result
              (fun kv =>
                 match dumps depth' (snd kv) with
                 | Raise e => Raise e
                 | Return t => Return (encode_basestring_ascii (fst kv) ++ lit ": " ++ t)
                 end) d with
      | Raise e => Raise e
      | Return items => Return (ch "{" :: join (lit ", ") items ++ [ch "}"])
      end
    end
  end.

(** *** [json.loads] with its default arguments (strict, no hooks) *)

(** The outcome of a scanning step: a value and the rest of the text; a
    syntax error; nesting beyond the recursion limit; an [int] numeral
    beyond the digit limit; or a loop that outran its measure (which
    never happens, see [scan_once_fuel]). *)
Inductive presult (A : Type) :=
| POk (a : A)
| PSyntax
| PDepth
| PDigits
| PFuel.
Arguments POk {A} a.
Arguments PSyntax {A}.
Arguments PDepth {A}.
Arguments PDigits {A}.
Arguments PFuel {A}.

Definition is_ws (c : codepoint) : bool :=
  ((c =? 32) || (c =? 9) || (c =? 10) || (c =? 13))%N.

Fixpoint skip_ws (s : str) : str :=
  match s with
  | c :: r => if is_ws c then skip_ws r else s
  | [] => []
  end.

Definition hex_val (c : codepoint) : option N :=
  if ((48 <=? c) && (c <=? 57))%N then Some (c - 48)%N
  else if ((97 <=? c) && (c <=? 102))%N then Some (c - 87)%N
  else if ((65 <=? c) && (c <=? 70))%N then Some (c - 55)%N
  else None.

Definition hex4_val (a b c d : codepoint) : option N :=
  match hex_val a, hex_val b, hex_val c, hex_val d with
  | Some x, Some y, Some z, Some w => Some (((x * 16 + y) * 16 + z) * 16 + w)%N
  | _, _, _, _ => None
  end.

Definition is_high_surrogate (c : N) : bool := ((55296 <=? c) && (c <=? 56319))%N.
Definition is_low_surrogate (c : N) : bool := ((56320 <=? c) && (c <=? 57343))%N.

Definition join_surrogates (hi lo : N) : N :=
  (65536 + N.lor (N.shiftl (hi - 55296) 10) (lo - 56320))%N.

Definition simple_escape (e : codepoint) : option codepoint :=
  if (e =? 34)%N then Some 34%N
  else if (e =? 92)%N then Some 92%N
  else if (e =? 47)%N then Some 47%N
  else if (e =? 98)%N then Some 8%N
  else if (e =? 102)%N then Some 12%N
  else if (e =? 110)%N then Some 10%N
  else if (e =? 114)%N then Some 13%N
  else if (e =? 116)%N then Some 9%N
  else None.

(** [scanstring], entered just after the opening quote: the decoded
    string and the text after the closing quote.  A control character, a
    bad escape or a missing closing quote is an error. *)
Fixpoint scanstring (s : str) : option (str * str) :=
  match s with
  | [] => None
  | c :: r =>
    if (c =? 34)%N then Some ([], r)
    else if (c =? 92)%N then
      match r with
      | [] => None
      | e :: r1 =>
        if (e =? 117)%N then
          match r1 with
          | h1 :: h2 :: h3 :: h4 :: r2 =>
            match hex4_val h1 h2 h3 h4 with
            | None => None
            | Some u =>
              match r2 with
              | b :: u' :: g1 :: g2 :: g3 :: g4 :: r3 =>
                if is_high_surrogate u && (b =? 92)%N && (u' =? 117)%N then
                  match hex4_val g1 g2 g3 g4 with
                  | None => None
                  | Some u2 =>
                    if is_low_surrogate u2 then
                      match scanstring r3 with
                      | Some (t, rest) => Some (join_surrogates u u2 :: t, rest)
                      | None => None
                      end
                    else
                      match scanstring r2 with
                      | Some (t, rest) => Some (u :: t, rest)
                      | None => None
                      end
                  end
                else
                  match scanstring r2 with
                  | Some (t, rest) => Some (u :: t, rest)
                  | None => None
                  end
              | _ =>
                match scanstring r2 with
                | Some (t, rest) => Some (u :: t, rest)
                | None => None
                end
              end
            end
          | _ => None
          end
        else
          match simple_escape e with
          | None => None
          | Some c' =>
            match scanstring r1 with
            | Some (t, rest) => Some (c' :: t, rest)
            | None => None
            end
          end
      end
    else if (c <? 32)%N then None
    else
      match scanstring r with
      | Some (t, rest) => Some (c :: t, rest)
      | None => None
      end
  end.

(** Decimal digits: the longest run at the head of the text. *)
Definition digit_of (c : codepoint) : option (Decimal.uint -> Decimal.uint) :=
  if (c =? 48)%N then Some D0 else if (c =? 49)%N then Some D1
  else if (c =? 50)%N then Some D2 else if (c =? 51)%N then Some D3
  else if (c =? 52)%N then Some D4 else if (c =? 53)%N then Some D5
  else if (c =? 54)%N then Some D6 else if (c =? 55)%N then Some D7
  else if (c =? 56)%N then Some D8 else if (c =? 57)%N then Some D9
  else None.

Fixpoint scan_digits (s : str) : Decimal.uint * str :=
  match s with
  | [] => (Nil, [])
  | c :: r =>
    match digit_of c with
    | Some D => let (u, rest) := scan_digits r in (D u, rest)
    | None => (Nil, s)
    end
  end.

(** The integer part of [NUMBER_RE]: [0], or a digit run that does not
    start with [0]. *)
Definition scan_intpart (s : str) : option (Decimal.uint * str) :=
  match s with
  | [] => None
  | c :: r =>
    if (c =? 48)%N then Some (D0 Nil, r)
    else
      match scan_digits s with
      | (Nil, _) => None
      | (u, rest) => Some (u, rest)
      end
  end.

(** The optional fraction [\.[0-9]+]: whether there is one, and the text
    after it. *)
Definition scan_frac (s : str) : bool * str :=
  match s with
  | c :: r =>
    if (c =? 46)%N then
      match scan_digits r with
      | (Nil, _) => (false, s)
      | (_, rest) => (true, rest)
      end
    else (false, s)
  | [] => (false, s)
  end.

(** The optional exponent [[eE][-+]?[0-9]+]. *)
Definition scan_exp (s : str) : bool * str :=
  match s with
  | c :: r =>
    if ((c =? 101) || (c =? 69))%N then
      let r1 :=
        match r with
        | sg :: r' => if ((sg =? 45) || (sg =? 43))%N then r' else r
        | [] => r
        end in
      match scan_digits r1 with
      | (Nil, _) => (false, s)
      | (_, rest) => (true, rest)
      end
    else (false, s)
  | [] => (false, s)
  end.

(** [match_number] on the text [s], whose part after the optional minus
    sign is [s1]: an [int] when neither fraction nor exponent is present
    ([int(numeral)], refused beyond the digit limit), and
    [float(numeral)] of the characters matched otherwise. *)
Definition scan_unsigned (neg : bool) (s s1 : str) : presult (pyval * str) :=
  match scan_intpart s1 with
  | None => PSyntax
  | Some (ip, s2) =>
    let (fr, s3) := scan_frac s2 in
    let (ex, s4) := scan_exp s3 in
    if fr || ex
    then POk (PyFloat (parse_float (firstn (List.length s - List.length s4) s)), s4)
    else if exceeds_digits (Decimal.nb_digits ip) then PDigits
    else POk (PyInt (Z.of_int (if neg then Neg ip else Pos ip)), s4)
  end.

(** [match_number]: [NUMBER_RE] at the head of the text. *)
Definition scan_number (s : str) : presult (pyval * str) :=
  match s with
  | c :: r => if (c =? 45)%N then scan_unsigned true s r else scan_unsigned false s s
  | [] => scan_unsigned false s s
  end.

(** [s] starts with the characters of [p]: the rest of [s]. *)
Fixpoint strip_prefix (p s : str) : option str :=
  match p with
  | [] => Some s
  | a :: p' =>
    match s with
    | b :: s' => if (a =? b)%N then strip_prefix p' s' else None
    | [] => None
    end
  end.

(** The loop of [_parse_array], entered before an element with the
    elements read so far; [scan] reads one value. *)
Fixpoint parse_array (scan : str -> presult (pyval * str)) (fuel : nat) (s : str)
         (acc : list pyval) {struct fuel} : presult (pyval * str) :=
  match fuel with
  | O => PFuel
  | S fuel' =>
    match scan s with
    | POk (v, rest) =>
      match skip_ws rest with
      | c :: r =>
        if (c =? 93)%N then POk (PyList (acc ++ [v]), r)
        else if (c =? 44)%N then parse_array scan fuel' (skip_ws r) (acc ++ [v])
        else PSyntax
      | [] => PSyntax
      end
    | other => other
    end
  end.

(** The loop of [_parse_object], entered before the opening quote of a
    key with the members read so far. *)
Fixpoint parse_object (scan : str -> presult (pyval * str)) (fuel : nat) (s : str)
         (acc : list (str * pyval)) {struct fuel} : presult (pyval * str) :=
  match fuel with
  | O => PFuel
  | S fuel' =>
    match s with
    | q :: r0 =>
      if (q =? 34)%N then
        match scanstring r0 with
        | None => PSyntax
        | Some (key, r1) =>
          match skip_ws r1 with
          | c :: r2 =>
            if (c =? 58)%N then
              match scan (skip_ws r2) with
              | POk (v, rest) =>
                match skip_ws rest with
                | c' :: r3 =>
                  if (c' =? 125)%N then POk (PyDict (dict_set acc key v), r3)
                  else if (c' =? 44)%N
                  then parse_object scan fuel' (skip_ws r3) (dict_set acc key v)
                  else PSyntax
                | [] => PSyntax
                end
              | other => other
              end
            else PSyntax
          | [] => PSyntax
          end
        end
      else PSyntax
    | [] => PSyntax
    end
  end.

(** [scan_once]: one value at the head of the text.  Entering an object
    or an array takes one level of [depth]; with none left the scanner
    raises [RecursionError].  The loops run on the length of the text,
    which they never use up. *)
Fixpoint scan_once (depth : nat) (s : str) {struct depth} : presult (pyval * str) :=
  match s with
  | [] => PSyntax
  | c :: r =>
    if (c =? 34)%N then
      match scanstring r with
      | Some (t, rest) => POk (PyStr t, rest)
      | None => PSyntax
      end
    else if (c =? 123)%N then
      match depth with
      | O => PDepth
      | S depth' =>
        match skip_ws r with
        | c1 :: r1 =>
          if (c1 =? 125)%N then POk (PyDict [], r1)
          else parse_object (scan_once depth') (S (List.length r)) (c1 :: r1) []
        | [] => PSyntax
        end
      end
    else if (c =? 91)%N then
      match depth with
      | O => PDepth
      | S depth' =>
        match skip_ws r with
        | c1 :: r1 =>
          if (c1 =? 93)%N then POk (PyList [], r1)
          else parse_array (scan_once depth') (S (List.length r)) (c1 :: r1) []
        | [] => PSyntax
        end
      end
    else
      match strip_prefix (lit "null") s with
      | Some rest => POk (PyNone, rest)
      | None =>
      match strip_prefix (lit "true") s with
      | Some rest => POk (PyBool true, rest)
      | None =>
      match strip_prefix (lit "false") s with
      | Some rest => POk (PyBool false, rest)
      | None =>
      match strip_prefix (lit "NaN") s with
      | Some rest => POk (PyFloat (parse_float (lit "nan")), rest)
      | None =>
      match strip_prefix (lit "Infinity") s with
      | Some rest => POk (PyFloat (parse_float (lit "inf")), rest)
      | None =>
      match strip_prefix (lit "-Infinity") s with
      | Some rest => POk (PyFloat (parse_float (lit "-inf")), rest)
      | None => scan_number s
      end end end end end end
  end.

(** [json.loads(s)] for a [str]: a leading byte-order mark is refused,
    white space around the one document is skipped, anything after it is
    an error. *)
Definition loads (s : str) : result pyval :=
  match s with
  | 65279%N :: _ => Raise JSONDecodeError
  | _ =>
    match scan_once loads_depth (skip_ws s) with
    | POk (v, rest) =>
      match skip_ws rest with
      | [] => Return v
      | _ :: _ => Raise JSONDecodeError
      end
    | PSyntax => Raise JSONDecodeError
    | PDepth => Raise RecursionError
    | PDigits => Raise ValueError
    | PFuel => Raise JSONDecodeError
    end
  end.

(** ** The class [Log4MCPClient] *)

Record Log4MCPClient := {
  host : str;
  port : Z;
  verbose : bool;
  socket : option sock;
  request_id : Z
}.

(** A program state: the client object and the world around it. *)
Record state := {
  self : Log4MCPClient;
  world : World
}.

(** Methods run in a state monad with exceptions; the state reached when
    an exception is raised is kept, as Python keeps it. *)
Definition M (A : Type) : Type := state -> result A * state.

Definition ret {A} (a : A) : M A := fun st => (Return a, st).

Definition bind {A B} (m : M A) (k : A -> M B) : M B :=
  fun st =>
    match m st with
    | (Return a, st') => k a st'
    | (Raise e, st') => (Raise e, st')
    end.

Definition raise {A} (e : exn) : M A := fun st => (Raise e, st).

(** [try: body except Exception as e: handler(e)] *)
Definition try_except {A} (body : M A) (handler : exn -> M A) : M A :=
  fun st =>
    match body st with
    | (Return a, st') => (Return a, st')
    | (Raise e, st') => handler e st'
    end.

Declare Scope py_scope.
Delimit Scope py_scope with py.
Notation "x <- m ;; k" := (bind m (fun x => k))
  (at level 61, m at next level, right associativity) : py_scope.
Notation "m ;; k" := (bind m (fun _ => k))
  (at level 61, right associativity) : py_scope.
Local Open Scope py_scope.

Definition get_self : M Log4MCPClient := fun st => (Return (self st), st).

Definition set_socket (s : option sock) : M unit :=
  fun st =>
    let c := self st in
    (Return tt,
     {| self := {| host := host c; port := port c; verbose := verbose c;
                   socket := s; request_id := request_id c |};
        world := world st |}).

Definition set_request_id (n : Z) : M unit :=
  fun st =>
    let c := self st in
    (Return tt,
     {| self := {| host := host c; port := port c; verbose := verbose c;
                   socket := socket c; request_id := n |};
        world := world st |}).

(** [print(..., file=sys.stderr)] *)
Definition eprint (d : diag) : M unit :=
  fun st => (Return tt, {| self := self st; world := print d (world st) |}).

Definition when (b : bool) (m : M unit) : M unit := if b then m else ret tt.

(** A library call on the world alone. *)
Definition lift {A} (f : World -> result A * World) : M A :=
  fun st =>
    let (r, w) := f (world st) in (r, {| self := self st; world := w |}).

(** A library call that touches neither the object nor the world. *)
Definition pure {A} (r : result A) : M A := fun st => (r, st).

(** A method call on the object that [self.socket] refers to. *)
Definition sock_send (s : sock) (data : bytes) : M nat := lift (socket_send s data).
Definition sock_recv (s : sock) (bufsize : nat) : M bytes := lift (socket_recv s bufsize).

Definition sock_close (s : sock) : M unit :=
  fun st =>
    match socket_close s (world st) with
    | (r, s', w) =>
      let c := self st in
      (r, {| self := {| host := host c; port := port c; verbose := verbose c;
                        socket := Some s'; request_id := request_id c |};
             world := w |})
    end.

Definition str_encode (s : str) : M bytes :=
  match encode s with
  | Some b => ret b
  | None => raise UnicodeEncodeError
  end.

Definition bytes_decode (b : bytes) : M str :=
  match decode b with
  | Some s => ret s
  | None => raise UnicodeDecodeError
  end.

(** [_connect] *)
Definition _connect : M unit :=
  try_except
    (s <- lift socket_socket ;;
     set_socket (Some s) ;;
     c <- get_self ;;
     lift (socket_connect s (host c) (port c)) ;;
     when (verbose c) (eprint (DiagConnected (host c) (port c))))
    (fun e =>
       c <- get_self ;;
       eprint (DiagConnectError (host c) (port c) e) ;;
       raise e).

(** [__init__]: the attribute assignments, then [_connect].  When it
    raises, no client object reaches the caller. *)
Definition __init__ (host : str) (port : Z) (verbose : bool) (w : World)
  : result unit * state :=
  _connect
    {| self := {| host := host; port := port; verbose := verbose;
                  socket := None; request_id := 0 |};
       world := w |}.

(** [json.dumps(obj)], [json.loads(s)] and [str(n)] where the client
    calls them. *)
Definition json_dumps (obj : pyval) : M str := pure (dumps dumps_depth obj).
Definition json_loads (s : str) : M pyval := pure (loads s).
Definition py_str (n : Z) : M str := pure (int_repr n).

(** [params or {}] *)
Definition params_or_empty (params : option (list (str * pyval))) : list (str * pyval) :=
  match params with
  | None => []
  | Some [] => []
  | Some d => d
  end.

(** [_send_request].  The request is built and serialised before the
    [try] statement: an exception of [str] or of [json.dumps] leaves the
    method at once, with nothing printed. *)
Definition _send_request (method : str) (params : option (list (str * pyval))) : M pyval :=
  c <- get_self ;;
  match socket c with
  | None => raise (Exception "Not connected to server")
  | Some s =>
    set_request_id (request_id c + 1) ;;
    c <- get_self ;;
    id <- py_str (request_id c) ;;
    let request :=
        PyDict [(lit "jsonrpc", PyStr (lit "2.0"));
                (lit "id", PyStr id);
                (lit "method", PyStr method);
                (lit "params", PyDict (params_or_empty params))] in
    request_json <- json_dumps request ;;
    when (verbose c) (eprint (DiagRequest request_json)) ;;
    try_except
      (data <- str_encode (request_json ++ [LF]) ;;
       sock_send s data ;;
       raw <- sock_recv s 4096 ;;
       response_json <- bytes_decode raw ;;
       match response_json with
       | [] => raise (Exception "Server closed connection")
       | _ :: _ =>
         when (verbose c) (eprint (DiagResponse response_json)) ;;
         response <- json_loads response_json ;;
         ret response
       end)
      (fun e => eprint (DiagSendError e) ;; raise e)
  end.

(** [log_message] *)
Definition log_message (logger_id level message : str) : M pyval :=
  _send_request (lit "log.message")
    (Some [(lit "loggerId", PyStr logger_id);
           (lit "level", PyStr level);
           (lit "message", PyStr message)]).

(** An [Optional[str]] argument as a Python value. *)
Definition optional_str (o : option str) : pyval :=
  match o with
  | None => PyNone
  | Some s => PyStr s
  end.

(** [get_entries]; [level] defaults to [None]. *)
Definition get_entries (logger_id : str) (level : option str) : M pyval :=
  _send_request (lit "log.getEntries")
    (Some [(lit "loggerId", PyStr logger_id);
           (lit "level", optional_str level)]).

(** [clear_logs] *)
Definition clear_logs (logger_id : str) : M pyval :=
  _send_request (lit "log.clear") (Some [(lit "loggerId", PyStr logger_id)]).

(** [set_log_level] *)
Definition set_log_level (logger_id level : str) : M pyval :=
  _send_request (lit "log.setLevel")
    (Some [(lit "loggerId", PyStr logger_id); (lit "level", PyStr level)]).

(** [get_capabilities] *)
Definition get_capabilities : M pyval :=
  _send_request (lit "system.capabilities") None.

(** [close] *)
Definition close : M unit :=
  try_except
    (c <- get_self ;;
     match socket c with
     | Some s =>
       sock_close s ;;
       c <- get_self ;;
       when (verbose c) (eprint DiagDisconnected)
     | None => ret tt
     end)
    (fun e => eprint (DiagCloseError e)).

(** ** Sequences of calls *)

(** One use of the client: the generic call or one of the five typed
    operations. *)
Inductive call :=
| Call (method : str) (params : option (list (str * pyval)))
| LogMessage (logger_id level message : str)
| GetEntries (logger_id : str) (level : option str)
| ClearLogs (logger_id : str)
| SetLogLevel (logger_id level : str)
| GetCapabilities.

Definition perform (c : call) : M pyval :=
  match c with
  | Call method params => _send_request method params
  | LogMessage logger_id level message => log_message logger_id level message
  | GetEntries logger_id level => get_entries logger_id level
  | ClearLogs logger_id => clear_logs logger_id
  | SetLogLevel logger_id level => set_log_level logger_id level
  | GetCapabilities => get_capabilities
  end.

(** The caller makes the calls one after the other and goes on after an
    exception. *)
Fixpoint perform_all (cs : list call) (st : state) : list (result pyval) * state :=
  match cs with
  | [] => ([], st)
  | c :: rest =>
    let (r, st1) := perform c st in
    let (rs, st2) := perform_all rest st1 in
    (r :: rs, st2)
  end.

(** ** Vocabulary of the properties *)

(** The method name and the parameters that a call puts in its request. *)
Definition call_method (c : call) : str :=
  match c with
  | Call method _ => method
  | LogMessage _ _ _ => lit "log.message"
  | GetEntries _ _ => lit "log.getEntries"
  | ClearLogs _ => lit "log.clear"
  | SetLogLevel _ _ => lit "log.setLevel"
  | GetCapabilities => lit "system.capabilities"
  end.

Definition call_params (c : call) : option (list (str * pyval)) :=
  match c with
  | Call _ params => params
  | LogMessage logger_id level message =>
    Some [(lit "loggerId", PyStr logger_id); (lit "level", PyStr level);
          (lit "message", PyStr message)]
  | GetEntries logger_id level =>
    Some [(lit "loggerId", PyStr logger_id); (lit "level", optional_str level)]
  | ClearLogs logger_id => Some [(lit "loggerId", PyStr logger_id)]
  | SetLogLevel logger_id level =>
    Some [(lit "loggerId", PyStr logger_id); (lit "level", PyStr level)]
  | GetCapabilities => None
  end.

(** What [str] and [json.dumps] make of the request of a call that takes
    the id [id]: the text of the request, or the exception. *)
Definition request_json (id : Z) (method : str) (params : option (list (str * pyval)))
  : result str :=
  match int_repr id with
  | Raise e => Raise e
  | Return id_text =>
    dumps dumps_depth
      (PyDict [(lit "jsonrpc", PyStr (lit "2.0"));
               (lit "id", PyStr id_text);
               (lit "method", PyStr method);
               (lit "params", PyDict (params_or_empty params))])
  end.

(** The bytes of a line of ASCII text: the text, then a line feed. *)
Definition line_of (text : str) : bytes := List.map byte_of_N (text ++ [LF]).

(** What such a call hands to [send]: one line when the request
    serialises, nothing when it does not. *)
Definition request_payloads (id : Z) (method : str) (params : option (list (str * pyval)))
  : list bytes :=
  match request_json id method params with
  | Return text => [line_of text]
  | Raise _ => []
  end.

(** The wire format of a request, as the specification gives it and with
    the spacing of [json.dumps]: the members [jsonrpc], [id], [method] and
    [params] in this order, the id as a string of decimal digits. *)
Definition request_text (id : Z) (method : str) (params_json : str) : str :=
  qlit "{'jsonrpc': '2.0', 'id': '" ++ str_of_int id
  ++ qlit "', 'method': " ++ encode_basestring_ascii method
  ++ qlit ", 'params': " ++ params_json ++ qlit "}".

(** The payloads handed to [send], in order. *)
Fixpoint sent (evs : list event) : list bytes :=
  match evs with
  | [] => []
  | EvSend data _ :: r => data :: sent r
  | _ :: r => sent r
  end.

(** The bytes that the connection took, in order. *)
Fixpoint written (evs : list event) : list bytes :=
  match evs with
  | [] => []
  | EvSend data (Some n) :: r => firstn n data :: written r
  | _ :: r => written r
  end.

Fixpoint recvs (evs : list event) : list (nat * option bytes) :=
  match evs with
  | [] => []
  | EvRecv n got :: r => (n, got) :: recvs r
  | _ :: r => recvs r
  end.

(** The error kinds of the specification, as the exceptions that the
    source raises for them. *)
Definition NotConnectedError : exn := Exception "Not connected to server".
Definition ConnectionClosedError : exn := Exception "Server closed connection".
Definition TransportError (e : exn) : Prop := exists errno, e = OSError errno.

(** The client object after one more request id has been taken. *)
Definition next_id (c : Log4MCPClient) : Log4MCPClient :=
  {| host := host c; port := port c; verbose := verbose c;
     socket := socket c; request_id := request_id c + 1 |}.

(** The diagnostic line of a request or response, printed when the
    client is verbose. *)
Definition trace_if (v : bool) (d : diag) (w : World) : World :=
  if v then print d w else w.

(** The client object once its socket object has been closed. *)
Definition closed_client (c : Log4MCPClient) : Log4MCPClient :=
  {| host := host c; port := port c; verbose := verbose c;
     socket := Some SockClosed; request_id := request_id c |}.

(** A character that [encode_basestring_ascii] leaves as it is. *)
Definition plain (c : codepoint) : Prop := printable c /\ c <> 34%N /\ c <> 92%N.

(** A scanner of one value that consumes text and never runs out. *)
Definition progresses (scan : str -> presult (pyval * str)) : Prop :=
  forall s,
    scan s <> PFuel
    /\ forall v rest, scan s = POk (v, rest) -> List.length rest < List.length s.

(** A diagnostic line that traces a request or a response. *)
Definition is_trace (d : diag) : Prop :=
  match d with
  | DiagRequest _ | DiagResponse _ => True
  | _ => False
  end.

(** The client object with another verbose flag. *)
Definition with_verbose (b : bool) (c : Log4MCPClient) : Log4MCPClient :=
  {| host := host c; port := port c; verbose := b;
     socket := socket c; request_id := request_id c |}.

(** What a caller does with a client: a call, or [close]. *)
Inductive action :=
| Do (c : call)
| Close.

Fixpoint run (acts : list action) (st : state) : state :=
  match acts with
  | [] => st
  | Do c :: rest => run rest (snd (perform c st))
  | Close :: rest => run rest (snd (close st))
  end.

Fixpoint calls_in (acts : list action) : nat :=
  match acts with
  | [] => 0
  | Do _ :: rest => S (calls_in rest)
  | Close :: rest => calls_in rest
  end.

(** White space only. *)
Definition blank (s : str) : Prop := Forall (fun c => is_ws c = true) s.


(** The payloads of a run of calls that starts with the counter at [n]. *)
Fixpoint request_lines (n : Z) (cs : list call) : list (list bytes) :=
  match cs with
  | [] => []
  | c :: r =>
    request_payloads (n + 1) (call_method c) (call_params c) :: request_lines (n + 1) r
  end.

(** A peer for examples: the address is good and the connection
    succeeds, [send] takes at most [room] bytes at a time, every [recv]
    yields [reply], and the release reports [close_error]. *)
Definition scripted (room : nat) (reply : bytes) (close_error : option Z) : network :=
  {| on_socket := None;
     on_address := fun _ _ => None;
     on_connect := fun _ _ => None;
     on_send := fun _ _ => Sent room;
     on_recv := fun _ => Received reply;
     on_close := fun _ => close_error |}.

Definition start (n : network) : World :=
  {| net := n; clock := 0; wire := []; stderr := [] |}.

(** A client as [__init__] leaves it on success. *)
Definition connected (host : str) (port : Z) (verbose : bool) : Log4MCPClient :=
  {| host := host; port := port; verbose := verbose;
     socket := Some SockOpen; request_id := 0 |}.


(** ** Induction over Python values *)

Section PyvalInduction.

Variable P : pyval -> Prop.
Hypothesis HNone : P PyNone.
Hypothesis HBool : forall b, P (PyBool b).
Hypothesis HInt : forall z, P (PyInt z).
Hypothesis HFloat : forall f, P (PyFloat f).
Hypothesis HStr : forall s, P (PyStr s).
Hypothesis HList : forall l, Forall P l -> P (PyList l).
Hypothesis HDict : forall d, Forall (fun kv => P (snd kv)) d -> P (PyDict d).

Fixpoint pyval_nested_ind (v : pyval) : P v :=
  match v with
  | PyNone => HNone
  | PyBool b => HBool b
  | PyInt z => HInt z
  | PyFloat f => HFloat f
  | PyStr s => HStr s
  | PyList l =>
    HList l ((fix all (l : list pyval) : Forall P l :=
                match l with
                | [] => Forall_nil P
                | x :: r => Forall_cons x (pyval_nested_ind x) (all r)
                end) l)
  | PyDict d =>
    HDict d ((fix all (d : list (str * pyval)) : Forall (fun kv => P (snd kv)) d :=
                match d with
                | [] => Forall_nil _
                | kv :: r => Forall_cons kv (pyval_nested_ind (snd kv)) (all r)
                end) d)
  end.

End PyvalInduction.

(** * Properties *)

(** ** What the serialiser emits *)

Ltac app_norm :=
  repeat first [progress cbn [List.app] | rewrite <- List.app_assoc].

Ltac printable_chars :=
  repeat first
    [ apply Forall_nil
    | apply Forall_cons; [unfold printable, ch; simpl; lia|] ].

Lemma uint_chars_printable (d : Decimal.uint) : Forall printable (uint_chars d).
Proof.
  induction d; simpl; printable_chars; auto.
Qed.

Lemma str_of_int_printable (z : Z) : Forall printable (str_of_int z).
Proof.
  unfold str_of_int, int_chars.
  destruct (Z.to_int z); printable_chars; apply uint_chars_printable.
Qed.

Lemma hex_digit_printable (n : N) : (n < 16)%N -> printable (hex_digit n).
Proof.
  intros Hn. unfold hex_digit, printable.
  destruct (N.ltb_spec n 10); lia.
Qed.

Lemma hex4_printable (n : N) : Forall printable (hex4 n).
Proof.
  unfold hex4.
  repeat (apply Forall_cons; [apply hex_digit_printable; apply N.mod_lt; discriminate|]).
  apply Forall_nil.
Qed.

Lemma u_escape_printable (n : N) : Forall printable (u_escape n).
Proof.
  unfold u_escape. printable_chars. apply hex4_printable.
Qed.

Lemma escape_char_printable (c : codepoint) : Forall printable (escape_char c).
Proof.
  unfold escape_char.
  repeat match goal with
         | |- context [if (?a =? ?b)%N then _ else _] =>
           destruct (N.eqb_spec a b);
           [solve [printable_chars]|]
         end.
  destruct (andb _ _) eqn:Hp.
  - apply andb_true_iff in Hp. destruct Hp as [H1 H2].
    apply N.leb_le in H1, H2.
    apply Forall_cons; [unfold printable; lia | apply Forall_nil].
  - destruct (c <? 65536)%N.
    + apply u_escape_printable.
    + apply Forall_app; split; apply u_escape_printable.
Qed.

Lemma flat_map_printable (s : str) : Forall printable (flat_map escape_char s).
Proof.
  induction s as [|c s IH]; simpl; [constructor|].
  apply Forall_app; split; [apply escape_char_printable | exact IH].
Qed.

Lemma encode_basestring_ascii_printable (s : str) :
  Forall printable (encode_basestring_ascii s).
Proof.
  unfold encode_basestring_ascii.
  apply Forall_cons; [unfold printable; lia|].
  apply Forall_app; split; [apply flat_map_printable | printable_chars].
Qed.

Lemma join_printable (sep : str) (items : list str) :
  Forall printable sep -> Forall (Forall printable) items ->
  Forall printable (join sep items).
Proof.
  intros Hsep Hitems.
  induction Hitems as [|x r Hx Hr IH]; simpl; [constructor|].
  destruct r as [|y r']; [exact Hx|].
  apply Forall_app; split; [exact Hx|].
  apply Forall_app; split; [exact Hsep | exact IH].
Qed.

Lemma lit_printable_sep : Forall printable (lit ", ") /\ Forall printable (lit ": ").
Proof.
  split; unfold lit; simpl; printable_chars.
Qed.

Lemma int_repr_text (z : Z) (t : str) : int_repr z = Return t -> t = str_of_int z.
Proof.
  unfold int_repr. destruct (exceeds_digits (int_digits z)); congruence.
Qed.

Lemma int_repr_raises (z : Z) (e : exn) : int_repr z = Raise e -> e = ValueError.
Proof.
  unfold int_repr. destruct (exceeds_digits (int_digits z)); congruence.
Qed.

Lemma Return_inj {A : Type} (a b : A) : Return a = Return b -> a = b.
Proof. congruence. Qed.

(** The results of [map_result], item by item. *)
Lemma map_result_Forall {A B : Type} (f : A -> result B) (Q : B -> Prop) (l : list A) :
  Forall (fun x => forall y, f x = Return y -> Q y) l ->
  forall ys, map_result f l = Return ys -> Forall Q ys.
Proof.
  induction 1 as [|x r Hx Hr IH]; intros ys; cbn [map_result].
  - intros H. inversion H. constructor.
  - destruct (f x) as [y|e] eqn:Hy; [|discriminate].
    destruct (map_result f r) as [ys'|e]; [|discriminate].
    intros H. inversion H. constructor; auto.
Qed.

Lemma map_result_raises {A B : Type} (f : A -> result B) (Q : exn -> Prop) (l : list A) :
  Forall (fun x => forall e, f x = Raise e -> Q e) l ->
  forall e, map_result f l = Raise e -> Q e.
Proof.
  induction 1 as [|x r Hx Hr IH]; intros e; cbn [map_result]; [discriminate|].
  destruct (f x) as [y|e0] eqn:Hy.
  - destruct (map_result f r) as [ys'|e1]; [discriminate|].
    intros H. inversion H. subst. auto.
  - intros H. inversion H. subst. auto.
Qed.

Lemma dumps_str (depth : nat) (s : str) :
  dumps depth (PyStr s) = Return (encode_basestring_ascii s).
Proof. destruct depth; reflexivity. Qed.

Lemma dumps_list (depth : nat) (l : list pyval) :
  dumps (S depth) (PyList l)
  = match map_result (dumps depth) l with
    | Raise e => Raise e
    | Return items => Return (ch "[" :: join (lit ", ") items ++ [ch "]"])
    end.
Proof. reflexivity. Qed.

Lemma dumps_dict (depth : nat) (d : list (str * pyval)) :
  dumps (S depth) (PyDict d)
  = match map_result
            (fun kv =>
               match dumps depth (snd kv) with
               | Raise e => Raise e
               | Return t => Return (encode_basestring_ascii (fst kv) ++ lit ": " ++ t)
               end) d with
    | Raise e => Raise e
    | Return items => Return (ch "{" :: join (lit ", ") items ++ [ch "}"])
    end.
Proof. reflexivity. Qed.

(** [json.dumps] emits printable ASCII only: no control character, and
    in particular no line feed, and nothing above U+007E. *)
Lemma dumps_printable (v : pyval) :
  forall depth t, dumps depth v = Return t -> Forall printable t.
Proof.
  induction v as [| [|] | z | f | s | l IH | d IH] using pyval_nested_ind;
    intros depth t; cbn [dumps];
    try solve [intros H; inversion H; subst; printable_chars].
  - intros H. rewrite (int_repr_text _ _ H). apply str_of_int_printable.
  - intros H. inversion H. apply floatstr_printable.
  - intros H. inversion H. apply encode_basestring_ascii_printable.
  - destruct depth as [|depth]; [discriminate|].
    destruct (map_result (dumps depth) l) as [items|e] eqn:Hm; [|discriminate].
    intros H. inversion H. printable_chars.
    apply Forall_app; split; [|printable_chars].
    apply join_printable; [apply lit_printable_sep|].
    apply (map_result_Forall (dumps depth) (Forall printable) l); [|exact Hm].
    eapply Forall_impl; [|exact IH]. intros x Hx y Hy. exact (Hx depth y Hy).
  - destruct depth as [|depth]; [discriminate|].
    match goal with
    | |- match map_result ?f d with _ => _ end = _ -> _ =>
      destruct (map_result f d) as [items|e] eqn:Hm; [|discriminate];
        intros H; inversion H; printable_chars;
        apply Forall_app; split; [|printable_chars];
        apply join_printable; [apply lit_printable_sep|];
        apply (map_result_Forall f (Forall printable) d); [|exact Hm]
    end.
    eapply Forall_impl; [|exact IH]. cbv beta. intros kv Hkv y.
    destruct (dumps depth (snd kv)) as [tv|e] eqn:Hv; [|discriminate].
    intros Hy. apply Return_inj in Hy. subst y.
    apply Forall_app; split; [apply encode_basestring_ascii_printable|].
    apply Forall_app; split; [apply lit_printable_sep | exact (Hkv depth tv Hv)].
Qed.

(** [json.dumps] raises for two reasons only: an [int] beyond the digit
    limit, and nesting beyond the recursion limit. *)
Lemma dumps_raises (v : pyval) :
  forall depth e, dumps depth v = Raise e -> e = ValueError \/ e = RecursionError.
Proof.
  induction v as [| [|] | z | f | s | l IH | d IH] using pyval_nested_ind;
    intros depth e; cbn [dumps]; try discriminate.
  - intros H. left. exact (int_repr_raises _ _ H).
  - destruct depth as [|depth]; [intros H; inversion H; auto|].
    destruct (map_result (dumps depth) l) as [items|e0] eqn:Hm; [discriminate|].
    intros H. inversion H. subst e0.
    apply (map_result_raises (dumps depth)
             (fun e => e = ValueError \/ e = RecursionError) l); [|exact Hm].
    eapply Forall_impl; [|exact IH]. intros x Hx e1 He1. exact (Hx depth e1 He1).
  - destruct depth as [|depth]; [intros H; inversion H; auto|].
    match goal with
    | |- match map_result ?f d with _ => _ end = _ -> _ =>
      destruct (map_result f d) as [items|e0] eqn:Hm; [discriminate|];
        intros H; inversion H; subst e0;
        apply (map_result_raises f (fun e => e = ValueError \/ e = RecursionError) d);
        [|exact Hm]
    end.
    eapply Forall_impl; [|exact IH]. cbv beta. intros kv Hkv e1.
    destruct (dumps depth (snd kv)) as [tv|e2] eqn:Hv; [discriminate|].
    intros He. inversion He. subst e2. exact (Hkv depth e1 Hv).
Qed.

(** ASCII text is its own UTF-8 encoding. *)
Lemma encode_ascii7 (s : str) :
  Forall ascii7 s -> encode s = Some (List.map byte_of_N s).
Proof.
  induction 1 as [|c r Hc Hr IH]; simpl; [reflexivity|].
  rewrite IH. unfold utf8_encode_char.
  destruct (N.ltb_spec c 128); [reflexivity | unfold ascii7 in Hc; lia].
Qed.

Lemma encode_line (text : str) :
  Forall printable text -> encode (text ++ [LF]) = Some (line_of text).
Proof.
  intros Hp. unfold line_of. apply encode_ascii7.
  apply Forall_app; split.
  - eapply Forall_impl; [|exact Hp].
    unfold printable, ascii7. intros; lia.
  - repeat constructor.
Qed.

Lemma line_of_bytes (text : str) : line_of text = List.map byte_of_N text ++ [x0a].
Proof.
  unfold line_of. rewrite List.map_app. reflexivity.
Qed.

(** ** The text of a request *)

Lemma params_or_empty_spec (p : option (list (str * pyval))) :
  params_or_empty p = match p with Some d => d | None => [] end.
Proof. destruct p as [[|kv d]|]; reflexivity. Qed.

Lemma escape_plain (c : codepoint) : plain c -> escape_char c = [c].
Proof.
  unfold plain, printable, escape_char. intros (Hp & H34 & H92).
  repeat match goal with
         | |- context [if (?a =? ?b)%N then _ else _] =>
           destruct (N.eqb_spec a b); [lia|]
         end.
  destruct (N.leb_spec 32 c); [|lia].
  destruct (N.leb_spec c 126); [reflexivity|lia].
Qed.

Lemma flat_map_plain (s : str) : Forall plain s -> flat_map escape_char s = s.
Proof.
  induction 1 as [|c r Hc Hr IH]; simpl; [reflexivity|].
  rewrite (escape_plain c Hc), IH. reflexivity.
Qed.

Lemma uint_chars_plain (d : Decimal.uint) : Forall plain (uint_chars d).
Proof.
  induction d; simpl; constructor; auto; unfold plain, printable; lia.
Qed.

Lemma str_of_int_plain (z : Z) : Forall plain (str_of_int z).
Proof.
  unfold str_of_int, int_chars.
  destruct (Z.to_int z); [|constructor; [unfold plain, printable, ch; simpl; lia|]];
    apply uint_chars_plain.
Qed.

(** When the request serialises, [str] gave the decimal numeral of the
    id and [json.dumps] the text of the object with the four members. *)
Lemma request_json_envelope (id : Z) (m : str) (p : option (list (str * pyval)))
      (text : str) :
  request_json id m p = Return text ->
  int_repr id = Return (str_of_int id)
  /\ dumps dumps_depth
       (PyDict [(lit "jsonrpc", PyStr (lit "2.0"));
                (lit "id", PyStr (str_of_int id));
                (lit "method", PyStr m);
                (lit "params", PyDict (match p with Some d => d | None => [] end))])
     = Return text.
Proof.
  unfold request_json. rewrite params_or_empty_spec.
  destruct (int_repr id) as [t|e] eqn:Hi; [|discriminate].
  rewrite (int_repr_text _ _ Hi) in *. auto.
Qed.

(** [request_json] in full: the digit limit on the id, one level of
    nesting for the request, and the text of the parameters inside the
    layout of the wire format. *)
Lemma request_json_cases (id : Z) (m : str) (p : option (list (str * pyval))) :
  request_json id m p
  = if exceeds_digits (int_digits id) then Raise ValueError
    else
      match dumps_depth with
      | O => Raise RecursionError
      | S depth =>
        match dumps depth (PyDict (match p with Some d => d | None => [] end)) with
        | Raise e => Raise e
        | Return params_json => Return (request_text id m params_json)
        end
      end.
Proof.
  unfold request_json, int_repr. rewrite params_or_empty_spec.
  destruct (exceeds_digits (int_digits id)); [reflexivity|].
  generalize dumps_depth. intros [|depth]; [reflexivity|].
  rewrite dumps_dict. cbn [map_result fst snd]. rewrite !dumps_str.
  destruct (dumps depth (PyDict match p with Some d => d | None => [] end))
    as [pj|e]; [|reflexivity].
  f_equal. unfold request_text, encode_basestring_ascii.
  rewrite (flat_map_plain _ (str_of_int_plain id)).
  cbn [join]. unfold qlit, lit, ch. cbn. app_norm. reflexivity.
Qed.

(** The layout of that text. *)
Lemma request_json_layout (id : Z) (m : str) (p : option (list (str * pyval)))
      (text : str) :
  request_json id m p = Return text ->
  exists params_json,
    dumps (pred dumps_depth) (PyDict (match p with Some d => d | None => [] end))
    = Return params_json
    /\ text = request_text id m params_json.
Proof.
  rewrite request_json_cases.
  destruct (exceeds_digits (int_digits id)); [discriminate|].
  generalize dumps_depth. intros [|depth]; [discriminate|]. cbn [Nat.pred].
  destruct (dumps depth (PyDict match p with Some d => d | None => [] end))
    as [pj|e]; [|discriminate].
  intros H. apply Return_inj in H. exists pj. auto.
Qed.

Lemma request_json_printable (id : Z) (m : str) (p : option (list (str * pyval)))
      (text : str) :
  request_json id m p = Return text -> Forall printable text.
Proof.
  intros H. destruct (request_json_envelope _ _ _ _ H) as [_ Hd].
  exact (dumps_printable _ _ _ Hd).
Qed.

(** A request that does not serialise: [ValueError] from [str] or
    [json.dumps], or [RecursionError] from [json.dumps]. *)
Lemma request_json_raises (id : Z) (m : str) (p : option (list (str * pyval))) (e : exn) :
  request_json id m p = Raise e -> e = ValueError \/ e = RecursionError.
Proof.
  unfold request_json. destruct (int_repr id) as [t|e0] eqn:Hi.
  - apply dumps_raises.
  - intros H. inversion H. subst. left. exact (int_repr_raises _ _ Hi).
Qed.

(** ** One call, step by step *)

Section Calls.

Variables (m : str) (p : option (list (str * pyval))).

(** No socket object: the guard raises before anything else happens. *)
Lemma send_request_none (c : Log4MCPClient) (w : World) :
  socket c = None ->
  _send_request m p {| self := c; world := w |}
  = (Raise NotConnectedError, {| self := c; world := w |}).
Proof.
  intros Hs. unfold _send_request, bind, get_self. cbn [self world].
  rewrite Hs. reflexivity.
Qed.

(** A request that does not serialise: the id is taken, and the
    exception of [str] or [json.dumps] leaves the method before the [try]
    statement, so nothing is printed and nothing reaches the socket. *)
Lemma send_request_unserialisable (c : Log4MCPClient) (w : World) (s : sock) (e : exn) :
  socket c = Some s ->
  request_json (request_id c + 1) m p = Raise e ->
  _send_request m p {| self := c; world := w |}
  = (Raise e, {| self := next_id c; world := w |}).
Proof.
  intros Hs Hj. unfold request_json in Hj.
  unfold _send_request, bind, get_self, set_request_id, py_str, json_dumps, pure.
  cbn [self world]. rewrite Hs. cbn [self world request_id verbose socket].
  destruct (int_repr (request_id c + 1)) as [t|e0].
  - rewrite Hj. unfold next_id. rewrite Hs. reflexivity.
  - inversion Hj. subst. unfold next_id. rewrite Hs. reflexivity.
Qed.

(** A socket object whose descriptor has been released: the guard lets
    the call through, the id is taken, and [send] raises [EBADF]. *)
Lemma send_request_closed (c : Log4MCPClient) (w : World) (text : str) :
  socket c = Some SockClosed ->
  request_json (request_id c + 1) m p = Return text ->
  _send_request m p {| self := c; world := w |}
  = (Raise (OSError EBADF),
     {| self := next_id c;
        world := print (DiagSendError (OSError EBADF))
                   (trace_if (verbose c) (DiagRequest text) w) |}).
Proof.
  intros Hs Hj. pose proof (request_json_printable _ _ _ _ Hj) as Hp.
  unfold request_json in Hj.
  unfold _send_request, bind, get_self, set_request_id, try_except, when, eprint, ret,
    raise, py_str, json_dumps, pure.
  cbn [self world]. rewrite Hs. cbn [self world request_id verbose socket].
  destruct (int_repr (request_id c + 1)) as [t|e0]; [|discriminate].
  rewrite Hj. unfold str_encode. rewrite (encode_line text Hp).
  unfold ret, sock_send, lift, socket_send, trace_if, next_id. rewrite Hs.
  destruct (verbose c); reflexivity.
Qed.

(** An open socket: the whole exchange, case by case. *)
Lemma send_request_open (c : Log4MCPClient) (w : World) (text : str) :
  socket c = Some SockOpen ->
  request_json (request_id c + 1) m p = Return text ->
  let line := line_of text in
  let w1 := trace_if (verbose c) (DiagRequest text) w in
  _send_request m p {| self := c; world := w |} =
  match on_send (net w) (clock w) line with
  | SendFails e =>
    (Raise (OSError e),
     {| self := next_id c;
        world := print (DiagSendError (OSError e)) (happen (EvSend line None) w1) |})
  | Sent k =>
    let w2 := happen (EvSend line (Some (Nat.min k (List.length line)))) w1 in
    match on_recv (net w) (S (clock w)) with
    | RecvFails e =>
      (Raise (OSError e),
       {| self := next_id c;
          world := print (DiagSendError (OSError e)) (happen (EvRecv 4096 None) w2) |})
    | Received data =>
      let got := firstn 4096 data in
      let w3 := happen (EvRecv 4096 (Some got)) w2 in
      match decode got with
      | None =>
        (Raise UnicodeDecodeError,
         {| self := next_id c; world := print (DiagSendError UnicodeDecodeError) w3 |})
      | Some [] =>
        (Raise ConnectionClosedError,
         {| self := next_id c;
            world := print (DiagSendError ConnectionClosedError) w3 |})
      | Some response_json =>
        let w4 := trace_if (verbose c) (DiagResponse response_json) w3 in
        match loads response_json with
        | Return v => (Return v, {| self := next_id c; world := w4 |})
        | Raise e =>
          (Raise e, {| self := next_id c; world := print (DiagSendError e) w4 |})
        end
      end
    end
  end.
Proof.
  intros Hs Hj line w1. pose proof (request_json_printable _ _ _ _ Hj) as Hp.
  unfold request_json in Hj.
  unfold _send_request, bind, get_self, set_request_id, try_except, when, eprint, ret,
    raise, py_str, json_dumps, pure.
  set (bufsize := 4096).
  cbn [self world]. rewrite Hs. cbn [self world request_id verbose socket].
  destruct (int_repr (request_id c + 1)) as [t|e0]; [|discriminate].
  rewrite Hj. unfold str_encode. rewrite (encode_line text Hp). fold line.
  unfold ret, raise, sock_send, sock_recv, lift, bytes_decode, json_loads, pure,
    socket_send, socket_recv.
  subst w1. unfold trace_if, next_id. rewrite Hs.
  destruct (verbose c); cbn [self world net clock happen print];
    destruct (on_send (net w) (clock w) line);
    cbn [self world net clock happen print]; try reflexivity;
    destruct (on_recv (net w) (S (clock w)));
    cbn [self world net clock happen print]; try reflexivity;
    destruct (decode (firstn bufsize data)) as [[|x response_json]|]; unfold ret, raise;
    cbn [self world net clock happen print]; try reflexivity;
    destruct (loads (x :: response_json)); reflexivity.
Qed.

End Calls.

Lemma perform_send_request (c : call) :
  perform c = _send_request (call_method c) (call_params c).
Proof. destruct c; reflexivity. Qed.

Lemma sent_app (a b : list event) : sent (a ++ b) = sent a ++ sent b.
Proof.
  induction a as [|[] a IH]; simpl; rewrite ?IH; reflexivity.
Qed.

Lemma written_app (a b : list event) : written (a ++ b) = written a ++ written b.
Proof.
  induction a as [|[| d [n|] | |] a IH]; simpl; rewrite ?IH; reflexivity.
Qed.

Lemma recvs_app (a b : list event) : recvs (a ++ b) = recvs a ++ recvs b.
Proof.
  induction a as [|[] a IH]; simpl; rewrite ?IH; reflexivity.
Qed.

Lemma wire_trace_if (v : bool) (d : diag) (w : World) : wire (trace_if v d w) = wire w.
Proof. destruct v; reflexivity. Qed.

Lemma net_trace_if (v : bool) (d : diag) (w : World) : net (trace_if v d w) = net w.
Proof. destruct v; reflexivity. Qed.

Lemma clock_trace_if (v : bool) (d : diag) (w : World) : clock (trace_if v d w) = clock w.
Proof. destruct v; reflexivity. Qed.

(** Case analysis on every outcome of the exchange on an open socket. *)
Ltac exchange_cases :=
  repeat match goal with
         | |- context [match on_send ?n ?k ?l with _ => _ end] =>
           destruct (on_send n k l)
         | |- context [match on_recv ?n ?k with _ => _ end] =>
           destruct (on_recv n k)
         | |- context [match decode ?b with _ => _ end] =>
           destruct (decode b) as [[|? ?]|]
         | |- context [match loads ?t with _ => _ end] =>
           destruct (loads t)
         end.

(** Names the buffer size of [recv], a large numeral. *)
Ltac name_bufsize := set (bufsize := 4096) in *.

(** Brings the wire of a world reached by an exchange to a normal form. *)
Ltac wire_norm :=
  repeat first [ progress cbn [fst snd self world net wire clock print happen]
               | rewrite net_trace_if | rewrite wire_trace_if ].

(** What every call on an open socket does to the object and the wire:
    one more id is taken, the socket object stays, and the request line
    with that id is handed to [send] when the request serialises;
    nothing is handed to [send] when it does not. *)
Lemma send_request_open_effect (m : str) (p : option (list (str * pyval)))
      (c : Log4MCPClient) (w : World) :
  socket c = Some SockOpen ->
  exists r w',
    _send_request m p {| self := c; world := w |} = (r, {| self := next_id c; world := w' |})
    /\ net w' = net w
    /\ sent (wire w') = sent (wire w) ++ request_payloads (request_id c + 1) m p.
Proof.
  intros Hs. unfold request_payloads.
  destruct (request_json (request_id c + 1) m p) as [text|e] eqn:Hj.
  - rewrite (send_request_open m p c w text Hs Hj). cbv zeta. name_bufsize.
    exchange_cases;
      eexists; eexists; (split; [reflexivity|]); wire_norm;
      (split; [reflexivity|]);
      rewrite ?sent_app; simpl; rewrite ?List.app_nil_r, <- ?List.app_assoc;
      reflexivity.
  - rewrite (send_request_unserialisable m p c w SockOpen e Hs Hj).
    eexists; eexists. split; [reflexivity|]. split; [reflexivity|].
    rewrite List.app_nil_r. reflexivity.
Qed.

(** Every call that passes the guard leaves the object with one more id
    taken, whatever its outcome. *)
Lemma send_request_takes_id (m : str) (p : option (list (str * pyval)))
      (c : Log4MCPClient) (w : World) (s : sock) :
  socket c = Some s ->
  self (snd (_send_request m p {| self := c; world := w |})) = next_id c.
Proof.
  intros Hs. destruct s.
  - destruct (send_request_open_effect m p c w Hs) as (r & w' & Hcall & _).
    rewrite Hcall. reflexivity.
  - destruct (request_json (request_id c + 1) m p) as [text|e] eqn:Hj.
    + rewrite (send_request_closed m p c w text Hs Hj). reflexivity.
    + rewrite (send_request_unserialisable m p c w SockClosed e Hs Hj). reflexivity.
Qed.

(** ** Construction *)

(** When [__init__] returns, the client holds an open socket and its
    counter is 0; nothing has been sent. *)
Lemma init_connected (h : str) (pt : Z) (v : bool) (w : World) (st : state) :
  __init__ h pt v w = (Return tt, st) ->
  self st = connected h pt v
  /\ net (world st) = net w
  /\ sent (wire (world st)) = sent (wire w).
Proof.
  unfold __init__, _connect, try_except, bind, lift, socket_socket, get_self,
    set_socket, socket_connect, when, eprint, ret, raise.
  cbn [self world host port verbose socket].
  destruct (on_socket (net w)); cbn [self world host port verbose socket];
    [discriminate|].
  destruct (on_address (net w) h pt); cbn [self world host port verbose socket];
    [discriminate|].
  destruct ((pt <? 0) || (65535 <? pt))%bool%Z; cbn [self world host port verbose socket];
    [discriminate|].
  destruct (on_connect (net w) h pt); cbn [self world host port verbose socket net];
    [discriminate|].
  destruct v; intros H; inversion H; subst; cbn [self world net wire happen print];
    rewrite sent_app, List.app_nil_r; auto.
Qed.

(** ** Request ids *)

Lemma perform_all_open (cs : list call) :
  forall (c : Log4MCPClient) (w : World),
    socket c = Some SockOpen ->
    let st' := snd (perform_all cs {| self := c; world := w |}) in
    sent (wire (world st')) = sent (wire w) ++ List.concat (request_lines (request_id c) cs)
    /\ request_id (self st') = (request_id c + Z.of_nat (List.length cs))%Z
    /\ socket (self st') = Some SockOpen.
Proof.
  induction cs as [|k cs IH]; intros c w Hs.
  - simpl. rewrite List.app_nil_r, Z.add_0_r. auto.
  - cbn [perform_all]. rewrite perform_send_request.
    destruct (send_request_open_effect (call_method k) (call_params k) c w Hs)
      as (r & w' & Hcall & _ & Hsent).
    rewrite Hcall.
    specialize (IH (next_id c) w' Hs).
    destruct (perform_all cs {| self := next_id c; world := w' |}) as [rs st2].
    cbn [snd] in *. destruct IH as (IH1 & IH2 & IH3).
    rewrite IH1, Hsent, <- List.app_assoc.
    cbn [request_lines next_id request_id List.concat] in *.
    repeat split; auto. rewrite IH2. cbn [List.length]. lia.
Qed.

Lemma request_lines_length (n : Z) (cs : list call) :
  List.length (request_lines n cs) = List.length cs.
Proof.
  revert n. induction cs; intros; simpl; auto.
Qed.

Lemma request_lines_nth (cs : list call) :
  forall (n : Z) (i : nat) (c : call),
    nth_error cs i = Some c ->
    nth_error (request_lines n cs) i
    = Some (request_payloads (n + Z.of_nat (S i)) (call_method c) (call_params c)).
Proof.
  induction cs as [|k cs IH]; intros n [|i] c H; simpl in H; try discriminate.
  - inversion H; subst. reflexivity.
  - cbn [request_lines nth_error]. rewrite (IH _ _ _ H).
    replace (n + 1 + Z.of_nat (S i))%Z with (n + Z.of_nat (S (S i)))%Z by lia.
    reflexivity.
Qed.

(** C1, as the code has it.  On a client that [__init__] has returned,
    the counter is 0 and every call, generic or typed, takes the next
    id, whatever the network does: after N calls the counter is N.  Call
    number i (from 1) hands to [send] exactly one line when its request
    serialises, and the text of that line carries the id [str(i)] in the
    layout of the wire format; when [str] or [json.dumps] refuses the
    request, the call has taken the id i all the same and hands nothing
    to [send].  So the ids sent are 1, 2, ..., N exactly when every
    request serialises. *)
Theorem request_ids_count_up
        (h : str) (pt : Z) (v : bool) (w : World) (st : state) (cs : list call) :
  __init__ h pt v w = (Return tt, st) ->
  exists per_call : list (list bytes),
    sent (wire (world (snd (perform_all cs st)))) = sent (wire w) ++ List.concat per_call
    /\ List.length per_call = List.length cs
    /\ (forall i c, nth_error cs i = Some c ->
          match request_json (Z.of_nat (S i)) (call_method c) (call_params c) with
          | Return text =>
            nth_error per_call i = Some [List.map byte_of_N text ++ [x0a]]
            /\ exists params_json,
                dumps (pred dumps_depth)
                  (PyDict (match call_params c with Some d => d | None => [] end))
                = Return params_json
                /\ text
                   = qlit "{'jsonrpc': '2.0', 'id': '" ++ str_of_int (Z.of_nat (S i))
                     ++ qlit "', 'method': " ++ encode_basestring_ascii (call_method c)
                     ++ qlit ", 'params': " ++ params_json ++ qlit "}"
          | Raise _ => nth_error per_call i = Some []
          end)
    /\ request_id (self st) = 0%Z
    /\ request_id (self (snd (perform_all cs st))) = Z.of_nat (List.length cs).
Proof.
  intros Hinit. destruct (init_connected _ _ _ _ _ Hinit) as (Hself & _ & Hsent).
  destruct st as [c w0]. cbn [self world] in *.
  assert (Hs : socket c = Some SockOpen) by (rewrite Hself; reflexivity).
  assert (Hid : request_id c = 0%Z) by (rewrite Hself; reflexivity).
  destruct (perform_all_open cs c w0 Hs) as (H1 & H2 & _).
  exists (request_lines 0 cs). rewrite H1, Hsent, H2, Hid.
  repeat split; auto using request_lines_length.
  intros i k Hk. rewrite (request_lines_nth cs 0 i k Hk).
  unfold request_payloads. cbn [Z.add].
  destruct (request_json (Z.of_nat (S i)) (call_method k) (call_params k))
    as [text|e] eqn:Hj; [|reflexivity].
  split.
  - rewrite line_of_bytes. reflexivity.
  - exact (request_json_layout _ _ _ _ Hj).
Qed.

(** ** Closing *)

Lemma close_step (c : Log4MCPClient) (w : World) :
  close {| self := c; world := w |} =
  match socket c with
  | None => (Return tt, {| self := c; world := w |})
  | Some SockClosed =>
    (Return tt,
     {| self := closed_client c; world := trace_if (verbose c) DiagDisconnected w |})
  | Some SockOpen =>
    match on_close (net w) (clock w) with
    | None =>
      (Return tt,
       {| self := closed_client c;
          world := trace_if (verbose c) DiagDisconnected (happen (EvClose true) w) |})
    | Some e =>
      (Return tt,
       {| self := closed_client c;
          world := print (DiagCloseError (OSError e)) (happen (EvClose false) w) |})
    end
  end.
Proof.
  unfold close, try_except, bind, get_self, sock_close, socket_close, when, eprint, ret.
  cbn [self world].
  destruct (socket c) as [[|]|]; cbn [self world]; try reflexivity.
  - destruct (on_close (net w) (clock w)); cbn [self world verbose]; try reflexivity.
    unfold trace_if, closed_client. destruct (verbose c); reflexivity.
  - unfold trace_if, closed_client. cbn [verbose]. destruct (verbose c); reflexivity.
Qed.

(** C7.  [close] returns normally in every state of the client: no
    socket object, an open socket, or a socket that is closed already.
    An error of the underlying release is printed to the diagnostic
    stream and not raised.  A second [close] returns normally too, and
    touches neither the wire nor the client object. *)
Theorem close_never_raises (st : state) :
  let st1 := snd (close st) in
  let st2 := snd (close st1) in
  fst (close st) = Return tt
  /\ fst (close st1) = Return tt
  /\ wire (world st2) = wire (world st1)
  /\ self st2 = self st1
  /\ stderr (world st1)
     = stderr (world st)
       ++ match socket (self st) with
          | None => []
          | Some SockClosed => if verbose (self st) then [DiagDisconnected] else []
          | Some SockOpen =>
            match on_close (net (world st)) (clock (world st)) with
            | Some e => [DiagCloseError (OSError e)]
            | None => if verbose (self st) then [DiagDisconnected] else []
            end
          end.
Proof.
  destruct st as [c w]. cbv zeta. rewrite (close_step c w). cbn [self world].
  destruct (socket c) as [[|]|] eqn:Hs.
  - destruct (on_close (net w) (clock w)); cbn [fst snd];
      rewrite close_step; cbn [socket closed_client fst snd self world verbose];
      rewrite ?wire_trace_if; unfold trace_if;
      destruct (verbose c); cbn [stderr wire print happen];
      rewrite ?List.app_nil_r; repeat split; reflexivity.
  - cbn [fst snd]. rewrite close_step.
    cbn [socket closed_client fst snd self world verbose].
    rewrite ?wire_trace_if. unfold trace_if.
    destruct (verbose c); cbn [stderr wire print happen];
      rewrite ?List.app_nil_r; repeat split; reflexivity.
  - cbn [fst snd]. rewrite close_step. rewrite Hs. cbn [fst snd self world].
    rewrite List.app_nil_r. repeat split; reflexivity.
Qed.

(** ** Calls without a connection *)

(** With no socket object the call is refused: [NotConnectedError], and
    neither the object (so not the counter) nor the world changes. *)
Lemma call_without_socket (m : str) (p : option (list (str * pyval))) (st : state) :
  socket (self st) = None ->
  _send_request m p st = (Raise NotConnectedError, st).
Proof.
  destruct st as [c w]. cbn [self]. apply send_request_none.
Qed.

(** C2, at the input where the code departs from it.  After [close] the
    client still holds its socket object, so the guard of
    [_send_request] does not fire: the call takes a request id and, its
    request serialised, fails in [send] with [OSError(EBADF)], not with
    [NotConnectedError].  (It does no network I/O.  A request that does
    not serialise makes the call fail earlier, with the exception of
    [str] or [json.dumps], the id taken all the same.) *)
Theorem call_after_close_takes_an_id
        (m : str) (p : option (list (str * pyval))) (c : Log4MCPClient) (w : World) :
  socket c = Some SockOpen ->
  let st1 := snd (close {| self := c; world := w |}) in
  let r := _send_request m p st1 in
  fst r = match request_json (request_id c + 1) m p with
          | Return _ => Raise (OSError EBADF)
          | Raise e => Raise e
          end
  /\ fst r <> Raise NotConnectedError
  /\ request_id (self (snd r)) = (request_id c + 1)%Z
  /\ wire (world (snd r)) = wire (world st1).
Proof.
  intros Hs. cbv zeta. rewrite close_step, Hs.
  destruct (request_json (request_id c + 1) m p) as [text|e] eqn:Hj.
  - destruct (on_close (net w) (clock w)); cbn [snd];
      rewrite (send_request_closed m p (closed_client c) _ text eq_refl Hj);
      cbn [fst snd self world next_id closed_client request_id verbose wire print];
      rewrite ?wire_trace_if; repeat split; auto; discriminate.
  - destruct (request_json_raises _ _ _ _ Hj) as [-> | ->];
      destruct (on_close (net w) (clock w)); cbn [snd];
      rewrite (send_request_unserialisable m p (closed_client c) _ SockClosed _ eq_refl Hj);
      cbn [fst snd self world next_id closed_client request_id];
      repeat split; auto; discriminate.
Qed.

(** ** The exchange on an open connection *)

(** C3.  On an open connection, for a request that serialises and a
    [send] that returns, the call performs exactly one [recv], right
    after the [send] and nothing else on the wire; when that [recv]
    yields no bytes (the peer has closed), the call raises
    [ConnectionClosedError] and returns no response. *)
Theorem one_receive_after_send
        (m : str) (p : option (list (str * pyval))) (c : Log4MCPClient) (w : World)
        (text : str) (k : nat) :
  socket c = Some SockOpen ->
  request_json (request_id c + 1) m p = Return text ->
  on_send (net w) (clock w) (List.map byte_of_N text ++ [x0a]) = Sent k ->
  let line := List.map byte_of_N text ++ [x0a] in
  let r := _send_request m p {| self := c; world := w |} in
  (exists got,
      wire (world (snd r))
      = wire w ++ [EvSend line (Some (Nat.min k (List.length line))); EvRecv 4096 got])
  /\ (forall data,
         on_recv (net w) (S (clock w)) = Received data ->
         firstn 4096 data = [] ->
         fst r = Raise ConnectionClosedError).
Proof.
  intros Hs Hj Hsend line r. subst r line.
  rewrite (send_request_open m p c w text Hs Hj). cbv zeta. name_bufsize.
  rewrite line_of_bytes.
  rewrite Hsend.
  split.
  - destruct (on_recv (net w) (S (clock w))) as [data|e].
    + exists (Some (firstn bufsize data)).
      exchange_cases; wire_norm; rewrite <- List.app_assoc; reflexivity.
    + exists None. wire_norm. rewrite <- List.app_assoc. reflexivity.
  - intros data Hrecv Hempty. rewrite Hrecv, Hempty. reflexivity.
Qed.




(** ** The bytes of a request *)




(** C6, at the input where the code departs from it.  [send] is called
    once and its return value is dropped: when the connection takes only
    the first [k] bytes of the line, with [k] less than its length, the
    call does not raise for it and does not write the rest; it goes on to
    [recv]. *)
Theorem short_write_goes_unnoticed
        (m : str) (p : option (list (str * pyval))) (c : Log4MCPClient) (w : World)
        (text : str) (k : nat) :
  socket c = Some SockOpen ->
  request_json (request_id c + 1) m p = Return text ->
  on_send (net w) (clock w) (List.map byte_of_N text ++ [x0a]) = Sent k ->
  k < List.length (List.map byte_of_N text ++ [x0a]) ->
  let line := List.map byte_of_N text ++ [x0a] in
  let r := _send_request m p {| self := c; world := w |} in
  written (wire (world (snd r))) = written (wire w) ++ [firstn k line]
  /\ firstn k line <> line
  /\ (exists got, recvs (wire (world (snd r))) = recvs (wire w) ++ [(4096, got)])
  /\ (forall data response_json v,
         on_recv (net w) (S (clock w)) = Received data ->
         decode (firstn 4096 data) = Some response_json -> response_json <> [] ->
         loads response_json = Return v ->
         fst r = Return v).
Proof.
  intros Hs Hj Hsend Hk line r. subst r line.
  rewrite (send_request_open m p c w text Hs Hj). cbv zeta. name_bufsize.
  rewrite line_of_bytes.
  rewrite Hsend.
  rewrite (Nat.min_l k) by lia.
  set (line := List.map byte_of_N text ++ [x0a]) in *.
  split; [|split; [|split]].
  - exchange_cases; wire_norm; rewrite !written_app; simpl;
      rewrite List.app_nil_r; reflexivity.
  - intros Heq. apply (f_equal (@List.length byte)) in Heq.
    rewrite length_firstn in Heq. lia.
  - destruct (on_recv (net w) (S (clock w))) as [data|e];
      [exists (Some (firstn bufsize data)) | exists None];
      exchange_cases; wire_norm; rewrite !recvs_app; simpl;
      rewrite List.app_nil_r; reflexivity.
  - intros data response_json v Hrecv Hd Hne Hl. rewrite Hrecv, Hd.
    destruct response_json as [|x t]; [contradiction|]. rewrite Hl. reflexivity.
Qed.

(** ** The typed operations *)

(** The parameters of [get_entries] serialise wherever the encoder can
    enter one more object. *)
Lemma get_entries_params_json (logger_id : str) (level : option str) (depth : nat) :
  dumps (S depth)
    (PyDict [(lit "loggerId", PyStr logger_id);
             (lit "level", match level with Some l => PyStr l | None => PyNone end)])
  = Return (qlit "{'loggerId': " ++ encode_basestring_ascii logger_id
            ++ qlit ", 'level': "
            ++ match level with
               | Some l => encode_basestring_ascii l
               | None => lit "null"
               end
            ++ lit "}").
Proof.
  rewrite dumps_dict. cbn [map_result fst snd]. rewrite dumps_str.
  destruct level as [l|]; [rewrite dumps_str|cbn [dumps]];
    cbn [join]; f_equal; unfold qlit, lit, ch, encode_basestring_ascii; cbn; app_norm;
    reflexivity.
Qed.

(** C8.  [get_entries] sends the method [log.getEntries] with the two
    parameters [loggerId] and [level], in this order.  Without a level
    filter the member [level] is present and is [null]; with a filter it
    carries the filter.  The request serialises whenever the encoder can
    enter two objects and the decimal numeral of the id is within the
    digit limit; its one line is then handed to [send]. *)
Theorem get_entries_params
        (logger_id : str) (level : option str) (c : Log4MCPClient) (w : World) :
  socket c = Some SockOpen ->
  let params :=
      [(lit "loggerId", PyStr logger_id);
       (lit "level", match level with Some l => PyStr l | None => PyNone end)] in
  let params_json :=
      qlit "{'loggerId': " ++ encode_basestring_ascii logger_id
      ++ qlit ", 'level': "
      ++ match level with
         | Some l => encode_basestring_ascii l
         | None => lit "null"
         end
      ++ lit "}" in
  let text :=
      qlit "{'jsonrpc': '2.0', 'id': '" ++ str_of_int (request_id c + 1)
      ++ qlit "', 'method': 'log.getEntries', 'params': " ++ params_json ++ qlit "}" in
  request_json (request_id c + 1) (lit "log.getEntries") (Some params)
  = (if exceeds_digits (int_digits (request_id c + 1)) then Raise ValueError
     else if dumps_depth <? 2 then Raise RecursionError
     else Return text)
  /\ sent (wire (world (snd (get_entries logger_id level {| self := c; world := w |}))))
     = sent (wire w)
       ++ (if exceeds_digits (int_digits (request_id c + 1)) || (dumps_depth <? 2)
           then []
           else [List.map byte_of_N text ++ [x0a]])
  /\ dict_keys params = [lit "loggerId"; lit "level"]
  /\ forall depth, dumps (S depth) (PyDict params) = Return params_json.
Proof.
  intros Hs params params_json text.
  assert (Hp : [(lit "loggerId", PyStr logger_id); (lit "level", optional_str level)]
               = params) by (destruct level; reflexivity).
  assert (Hj : request_json (request_id c + 1) (lit "log.getEntries") (Some params)
               = (if exceeds_digits (int_digits (request_id c + 1)) then Raise ValueError
                  else if dumps_depth <? 2 then Raise RecursionError
                  else Return text)).
  { rewrite request_json_cases.
    destruct (exceeds_digits (int_digits (request_id c + 1))); [reflexivity|].
    generalize dumps_depth. intros [|[|depth]]; [reflexivity|reflexivity|].
    change (S (S depth) <? 2) with false. subst params. cbv iota.
    rewrite (get_entries_params_json logger_id level depth).
    reflexivity. }
  split; [exact Hj|]. split; [|split; [reflexivity|]].
  - unfold get_entries. rewrite Hp.
    destruct (send_request_open_effect (lit "log.getEntries") (Some params) c w Hs)
      as (r & w' & Hcall & _ & Hsent).
    rewrite Hcall. cbn [snd world]. rewrite Hsent.
    unfold request_payloads. rewrite Hj.
    destruct (exceeds_digits (int_digits (request_id c + 1))); [reflexivity|].
    destruct (dumps_depth <? 2); [reflexivity|].
    cbn [orb]. rewrite line_of_bytes. reflexivity.
  - intros depth. apply get_entries_params_json.
Qed.

(** ** Failed calls *)

(** C10.  A call that passes the guard and then fails, in [send], in
    [recv], on an empty read or on a response that does not parse (or
    before them, on a request that does not serialise), has taken its id
    and does not give it back: the counter stays one up, and the next
    call takes the id after it, which is the id in the line it hands to
    [send] when its request serialises. *)
Theorem failed_call_keeps_id
        (m : str) (p : option (list (str * pyval))) (c : Log4MCPClient) (w : World)
        (s : sock) (e : exn) (st' : state) :
  socket c = Some s ->
  _send_request m p {| self := c; world := w |} = (Raise e, st') ->
  request_id (self st') = (request_id c + 1)%Z
  /\ forall m' p',
      request_id (self (snd (_send_request m' p' st'))) = (request_id c + 2)%Z
      /\ (request_id c + 1 < request_id c + 2)%Z
      /\ (s = SockOpen ->
          forall text,
            request_json (request_id c + 2) m' p' = Return text ->
            sent (wire (world (snd (_send_request m' p' st'))))
            = sent (wire (world st')) ++ [List.map byte_of_N text ++ [x0a]]
            /\ exists params_json,
                text
                = qlit "{'jsonrpc': '2.0', 'id': '" ++ str_of_int (request_id c + 2)
                  ++ qlit "', 'method': " ++ encode_basestring_ascii m'
                  ++ qlit ", 'params': " ++ params_json ++ qlit "}").
Proof.
  intros Hs Hcall.
  pose proof (send_request_takes_id m p c w s Hs) as Hself.
  rewrite Hcall in Hself. cbn [snd] in Hself.
  destruct st' as [c' w']. cbn [self world] in *. subst c'.
  split; [reflexivity|]. intros m' p'.
  assert (Hs' : socket (next_id c) = Some s) by exact Hs.
  split; [|split].
  - rewrite (send_request_takes_id m' p' (next_id c) w' s Hs').
    cbn [next_id request_id]. lia.
  - lia.
  - intros -> text Hj.
    destruct (send_request_open_effect m' p' (next_id c) w' Hs')
      as (r & w'' & Hcall' & _ & Hsent).
    rewrite Hcall'. cbn [snd world]. rewrite Hsent. cbn [next_id request_id].
    replace (request_id c + 1 + 1)%Z with (request_id c + 2)%Z by lia.
    unfold request_payloads. rewrite Hj. split.
    + rewrite line_of_bytes. reflexivity.
    + destruct (request_json_layout _ _ _ _ Hj) as (pj & _ & Ht). exists pj. exact Ht.
Qed.

(** ** The scanner always comes to an answer *)

Lemma skip_ws_le (s : str) : List.length (skip_ws s) <= List.length s.
Proof.
  induction s as [|c s IH]; simpl; [lia|].
  destruct (is_ws c); simpl; lia.
Qed.

Lemma scanstring_shorter (n : nat) :
  forall s t rest,
    List.length s <= n -> scanstring s = Some (t, rest) ->
    List.length rest < List.length s.
Proof.
  induction n as [|n IH]; intros s t rest Hn.
  - destruct s; [discriminate | simpl in Hn; lia].
  - destruct s as [|c r]; [discriminate|]. cbn [List.length] in Hn.
    assert (Hrec : forall s' t' rest',
               List.length s' <= List.length r ->
               match scanstring s' with
               | Some (t0, rest0) => Some (t' t0, rest0)
               | None => None
               end = Some (t, rest') ->
               List.length rest' < List.length (c :: r)).
    { intros s' t' rest' Hs'. destruct (scanstring s') as [[t0 rest0]|] eqn:Hsc;
        [|discriminate].
      intros H. inversion H. subst rest0.
      assert (List.length rest' < List.length s') by (apply (IH s' t0); [lia|exact Hsc]).
      cbn [List.length]. lia. }
    cbn [scanstring].
    destruct (c =? 34)%N.
    { intros H. inversion H. subst. cbn [List.length]. lia. }
    destruct (c =? 92)%N.
    2:{ destruct (c <? 32)%N; [discriminate|].
        apply (Hrec r (cons c)). lia. }
    destruct r as [|e r1]; [discriminate|].
    destruct (e =? 117)%N.
    2:{ destruct (simple_escape e) as [c'|]; [|discriminate].
        apply (Hrec r1 (cons c')). cbn [List.length]. lia. }
    destruct r1 as [|h1 [|h2 [|h3 [|h4 r2]]]]; try discriminate.
    destruct (hex4_val h1 h2 h3 h4) as [u|]; [|discriminate].
    assert (Hr2 : forall rest',
               match scanstring r2 with
               | Some (t0, rest0) => Some (u :: t0, rest0)
               | None => None
               end = Some (t, rest') ->
               List.length rest' < List.length (c :: e :: h1 :: h2 :: h3 :: h4 :: r2)).
    { intros rest'. apply (Hrec r2 (cons u)). cbn [List.length]. lia. }
    destruct r2 as [|b [|u' [|g1 [|g2 [|g3 [|g4 r3]]]]]]; try apply Hr2.
    destruct (is_high_surrogate u && (b =? 92)%N && (u' =? 117)%N); [|apply Hr2].
    destruct (hex4_val g1 g2 g3 g4) as [u2|]; [|discriminate].
    destruct (is_low_surrogate u2); [|apply Hr2].
    apply (Hrec r3 (cons (join_surrogates u u2))). cbn [List.length]. lia.
Qed.

Lemma scan_digits_le (s : str) :
  List.length (snd (scan_digits s)) <= List.length s.
Proof.
  induction s as [|c r IH]; simpl; [lia|].
  destruct (digit_of c) as [D|]; [|simpl; lia].
  destruct (scan_digits r) as [u rest]. simpl in *. lia.
Qed.

Lemma scan_intpart_shorter (s : str) (ip : Decimal.uint) (rest : str) :
  scan_intpart s = Some (ip, rest) -> List.length rest < List.length s.
Proof.
  unfold scan_intpart. destruct s as [|c r]; [discriminate|].
  destruct (c =? 48)%N.
  - intros H. inversion H. simpl. lia.
  - cbn [scan_digits]. destruct (digit_of c) as [D|]; [|discriminate].
    pose proof (scan_digits_le r) as Hle.
    destruct (scan_digits r) as [u rest']. cbn [snd] in Hle.
    destruct (D u); try discriminate; intros H; inversion H; subst; simpl; lia.
Qed.

Lemma scan_frac_le (s : str) : List.length (snd (scan_frac s)) <= List.length s.
Proof.
  unfold scan_frac. destruct s as [|c r]; [simpl; lia|].
  destruct (c =? 46)%N; [|simpl; lia].
  pose proof (scan_digits_le r) as Hle.
  destruct (scan_digits r) as [[| | | | | | | | | |] rest]; cbn [snd List.length] in *; lia.
Qed.

Lemma scan_exp_le (s : str) : List.length (snd (scan_exp s)) <= List.length s.
Proof.
  unfold scan_exp. destruct s as [|c r]; [simpl; lia|].
  destruct ((c =? 101) || (c =? 69))%N; [|simpl; lia].
  assert (Hr1 : List.length
                  match r with
                  | sg :: r' => if ((sg =? 45) || (sg =? 43))%N then r' else r
                  | [] => r
                  end <= List.length r).
  { destruct r as [|sg r']; [simpl; lia|].
    destruct ((sg =? 45) || (sg =? 43))%N; simpl; lia. }
  match goal with
  | |- context [scan_digits ?x] =>
    pose proof (scan_digits_le x) as Hle;
      destruct (scan_digits x) as [[| | | | | | | | | |] rest]
  end; cbn [snd List.length] in *; lia.
Qed.

Lemma scan_unsigned_shorter (neg : bool) (s s1 : str) (v : pyval) (rest : str) :
  List.length s1 <= List.length s ->
  scan_unsigned neg s s1 = POk (v, rest) -> List.length rest < List.length s.
Proof.
  intros Hs1. unfold scan_unsigned.
  destruct (scan_intpart s1) as [[ip s2]|] eqn:Hi; [|discriminate].
  apply scan_intpart_shorter in Hi.
  pose proof (scan_frac_le s2) as Hf. destruct (scan_frac s2) as [fr s3].
  pose proof (scan_exp_le s3) as He. destruct (scan_exp s3) as [ex s4].
  cbn [snd] in *.
  destruct (fr || ex).
  - intros H. inversion H. subst. lia.
  - destruct (exceeds_digits (Decimal.nb_digits ip)); [discriminate|].
    intros H. inversion H. subst. lia.
Qed.

Lemma scan_number_shorter (s : str) (v : pyval) (rest : str) :
  scan_number s = POk (v, rest) -> List.length rest < List.length s.
Proof.
  unfold scan_number. destruct s as [|c r].
  - apply scan_unsigned_shorter. lia.
  - destruct (c =? 45)%N; apply scan_unsigned_shorter; simpl; lia.
Qed.

Lemma scan_unsigned_answers (neg : bool) (s s1 : str) : scan_unsigned neg s s1 <> PFuel.
Proof.
  unfold scan_unsigned.
  destruct (scan_intpart s1) as [[ip s2]|]; [|discriminate].
  destruct (scan_frac s2) as [fr s3]. destruct (scan_exp s3) as [ex s4].
  destruct (fr || ex); [discriminate|].
  destruct (exceeds_digits (Decimal.nb_digits ip)); discriminate.
Qed.

Lemma scan_number_answers (s : str) : scan_number s <> PFuel.
Proof.
  unfold scan_number. destruct s as [|c r]; [|destruct (c =? 45)%N];
    apply scan_unsigned_answers.
Qed.

Lemma strip_prefix_shorter (p s rest : str) :
  p <> [] -> strip_prefix p s = Some rest -> List.length rest < List.length s.
Proof.
  intros Hp. assert (H : forall p s, strip_prefix p s = Some rest ->
                           List.length rest + List.length p = List.length s).
  { clear. induction p as [|a p IH]; intros s; simpl.
    - intros H. inversion H. lia.
    - destruct s as [|b s]; [discriminate|].
      destruct (a =? b)%N; [|discriminate].
      intros H. apply IH in H. simpl. lia. }
  intros Hs. apply H in Hs. destruct p; [congruence|]. simpl in Hs. lia.
Qed.

Lemma parse_array_progresses (scan : str -> presult (pyval * str)) :
  progresses scan ->
  forall fuel s acc,
    List.length s < fuel ->
    parse_array scan fuel s acc <> PFuel
    /\ forall v rest,
        parse_array scan fuel s acc = POk (v, rest) -> List.length rest < List.length s.
Proof.
  intros Hscan. induction fuel as [|fuel IH]; intros s acc Hf; [lia|].
  cbn [parse_array]. destruct (Hscan s) as [Hnf Hsh].
  destruct (scan s) as [[v0 rest0]| | | |] eqn:Hs;
    try (split; [discriminate | intros; discriminate]); [|congruence].
  specialize (Hsh v0 rest0 eq_refl).
  pose proof (skip_ws_le rest0) as Hw.
  destruct (skip_ws rest0) as [|c r]; [split; [discriminate | intros; discriminate]|].
  cbn [List.length] in Hw.
  destruct (c =? 93)%N.
  { split; [discriminate|]. intros v rest H. inversion H. subst. lia. }
  destruct (c =? 44)%N; [|split; [discriminate | intros; discriminate]].
  pose proof (skip_ws_le r) as Hw'.
  destruct (IH (skip_ws r) (acc ++ [v0])) as [IH1 IH2]; [lia|].
  split; [exact IH1|]. intros v rest H. apply IH2 in H. lia.
Qed.

Lemma parse_object_progresses (scan : str -> presult (pyval * str)) :
  progresses scan ->
  forall fuel s acc,
    List.length s < fuel ->
    parse_object scan fuel s acc <> PFuel
    /\ forall v rest,
        parse_object scan fuel s acc = POk (v, rest) -> List.length rest < List.length s.
Proof.
  intros Hscan. induction fuel as [|fuel IH]; intros s acc Hf; [lia|].
  cbn [parse_object].
  destruct s as [|q r0]; [split; [discriminate | intros; discriminate]|].
  destruct (q =? 34)%N; [|split; [discriminate | intros; discriminate]].
  destruct (scanstring r0) as [[key r1]|] eqn:Hk;
    [|split; [discriminate | intros; discriminate]].
  apply (scanstring_shorter (List.length r0)) in Hk; [|lia].
  pose proof (skip_ws_le r1) as Hw1.
  destruct (skip_ws r1) as [|c r2]; [split; [discriminate | intros; discriminate]|].
  destruct (c =? 58)%N; [|split; [discriminate | intros; discriminate]].
  pose proof (skip_ws_le r2) as Hw2.
  destruct (Hscan (skip_ws r2)) as [Hnf Hsh].
  destruct (scan (skip_ws r2)) as [[v0 rest0]| | | |] eqn:Hs;
    try (split; [discriminate | intros; discriminate]); [|congruence].
  specialize (Hsh v0 rest0 eq_refl).
  pose proof (skip_ws_le rest0) as Hw.
  destruct (skip_ws rest0) as [|c' r3]; [split; [discriminate | intros; discriminate]|].
  cbn [List.length] in *.
  destruct (c' =? 125)%N.
  { split; [discriminate|]. intros v rest H. inversion H. subst. lia. }
  destruct (c' =? 44)%N; [|split; [discriminate | intros; discriminate]].
  pose proof (skip_ws_le r3) as Hw'.
  destruct (IH (skip_ws r3) (dict_set acc key v0)) as [IH1 IH2]; [lia|].
  split; [exact IH1|]. intros v rest H. apply IH2 in H. lia.
Qed.

Ltac no_answer := split; [discriminate | intros; discriminate].

Ltac string_case r :=
  let Hk := fresh "Hk" in
  destruct (scanstring r) as [[? ?]|] eqn:Hk;
  [ apply (scanstring_shorter (List.length r)) in Hk; [|lia];
    split; [discriminate|];
    let H := fresh "H" in
    intros ? ? H; inversion H; subst; cbn [List.length]; lia
  | no_answer ].

Ltac scalar_case :=
  repeat match goal with
         | |- context [strip_prefix ?p ?s] =>
           let Hp := fresh "Hp" in
           destruct (strip_prefix p s) eqn:Hp;
           [ apply strip_prefix_shorter in Hp; [|discriminate];
             split; [discriminate|];
             let H := fresh "H" in
             intros ? ? H; inversion H; subst; exact Hp
           | ]
         end;
  split; [apply scan_number_answers | apply scan_number_shorter].

Lemma scan_once_progresses (depth : nat) : progresses (scan_once depth).
Proof.
  induction depth as [|depth IH]; intros s;
    (destruct s as [|c r]; [no_answer|]); cbn [scan_once].
  - destruct (c =? 34)%N; [string_case r|].
    destruct (c =? 123)%N; [no_answer|].
    destruct (c =? 91)%N; [no_answer|].
    scalar_case.
  - destruct (c =? 34)%N; [string_case r|].
    pose proof (skip_ws_le r) as Hw.
    destruct (c =? 123)%N.
    { destruct (skip_ws r) as [|c1 r1]; [no_answer|].
      destruct (c1 =? 125)%N.
      - split; [discriminate|]. intros v rest H. inversion H. subst.
        cbn [List.length] in *. lia.
      - destruct (parse_object_progresses (scan_once depth) IH
                    (S (List.length r)) (c1 :: r1) []) as [H1 H2]; [lia|].
        split; [exact H1|]. intros v rest H. apply H2 in H.
        cbn [List.length] in *. lia. }
    destruct (c =? 91)%N.
    { destruct (skip_ws r) as [|c1 r1]; [no_answer|].
      destruct (c1 =? 93)%N.
      - split; [discriminate|]. intros v rest H. inversion H. subst.
        cbn [List.length] in *. lia.
      - destruct (parse_array_progresses (scan_once depth) IH
                    (S (List.length r)) (c1 :: r1) []) as [H1 H2]; [lia|].
        split; [exact H1|]. intros v rest H. apply H2 in H.
        cbn [List.length] in *. lia. }
    scalar_case.
Qed.

(** The loops of the scanner never outrun the length of the text. *)
Lemma scan_once_fuel (depth : nat) (s : str) : scan_once depth s <> PFuel.
Proof. exact (proj1 (scan_once_progresses depth s)). Qed.

(** * Further properties *)

(** ** Requests that do not serialise *)


(** ** Diagnostics *)

Lemma stderr_trace_if (v : bool) (d : diag) (w : World) :
  stderr (trace_if v d w) = stderr w ++ (if v then [d] else []).
Proof. destruct v; cbn [trace_if print stderr]; rewrite ?List.app_nil_r; reflexivity. Qed.

Ltac check_traces :=
  split;
  [ | split; [let Hv := fresh in intros Hv; first [discriminate Hv | reflexivity]
             | reflexivity] ];
  repeat constructor.

Ltac find_traces :=
  first [ exists []; check_traces
        | eexists [_]; check_traces
        | eexists [_; _]; check_traces ].

(** A call whose request serialises prints its exception, once and last,
    as a send error before raising it again; a call that returns prints
    no error.  The other lines are the request and response traces, and
    there are none unless the client is verbose. *)
Theorem errors_are_reported
        (m : str) (p : option (list (str * pyval))) (c : Log4MCPClient) (w : World)
        (s : sock) (text : str) :
  socket c = Some s ->
  request_json (request_id c + 1) m p = Return text ->
  let r := _send_request m p {| self := c; world := w |} in
  exists traces,
    Forall is_trace traces
    /\ (verbose c = false -> traces = [])
    /\ stderr (world (snd r))
       = stderr w ++ traces
         ++ match fst r with
            | Raise e => [DiagSendError e]
            | Return _ => []
            end.
Proof.
  intros Hs Hj. cbv zeta. destruct s.
  - rewrite (send_request_open m p c w text Hs Hj). cbv zeta. name_bufsize.
    exchange_cases;
      cbn [fst snd world stderr print happen];
      rewrite ?stderr_trace_if; cbn [stderr happen]; rewrite ?stderr_trace_if;
      rewrite <- ?List.app_assoc;
      destruct (verbose c); find_traces.
  - rewrite (send_request_closed m p c w text Hs Hj).
    cbn [fst snd world stderr print]. rewrite stderr_trace_if, <- List.app_assoc.
    destruct (verbose c); find_traces.
Qed.

(** The verbose flag changes nothing but the diagnostic stream: the
    result of a call, the wire and the client object are the same with
    and without it. *)
Theorem verbose_is_only_diagnostic
        (m : str) (p : option (list (str * pyval))) (c : Log4MCPClient) (w : World)
        (b : bool) :
  let r := _send_request m p {| self := c; world := w |} in
  let r' := _send_request m p {| self := with_verbose b c; world := w |} in
  fst r' = fst r
  /\ wire (world (snd r')) = wire (world (snd r))
  /\ clock (world (snd r')) = clock (world (snd r))
  /\ request_id (self (snd r')) = request_id (self (snd r))
  /\ socket (self (snd r')) = socket (self (snd r)).
Proof.
  set (c' := with_verbose b c).
  assert (Hsock : socket c' = socket c) by reflexivity.
  assert (Hid : request_id c' = request_id c) by reflexivity.
  clearbody c'. cbv zeta. destruct (socket c) as [s|] eqn:Hs.
  - destruct (request_json (request_id c + 1) m p) as [text|e] eqn:Hj.
    + assert (Hj' : request_json (request_id c' + 1) m p = Return text)
        by (rewrite Hid; exact Hj).
      destruct s.
      * rewrite (send_request_open m p c w text Hs Hj).
        rewrite (send_request_open m p c' w text Hsock Hj'). cbv zeta. name_bufsize.
        exchange_cases;
          cbn [fst snd self world wire clock print happen];
          rewrite ?wire_trace_if, ?clock_trace_if;
          cbn [wire clock happen]; rewrite ?wire_trace_if, ?clock_trace_if;
          cbn [next_id request_id socket]; rewrite ?Hid, ?Hsock, ?Hs;
          repeat split; reflexivity.
      * rewrite (send_request_closed m p c w text Hs Hj).
        rewrite (send_request_closed m p c' w text Hsock Hj').
        cbn [fst snd self world wire clock print].
        rewrite ?wire_trace_if, ?clock_trace_if.
        cbn [next_id request_id socket]. rewrite ?Hid, ?Hsock, ?Hs.
        repeat split; reflexivity.
    + assert (Hj' : request_json (request_id c' + 1) m p = Raise e)
        by (rewrite Hid; exact Hj).
      rewrite (send_request_unserialisable m p c w s e Hs Hj).
      rewrite (send_request_unserialisable m p c' w s e Hsock Hj').
      cbn [fst snd self world next_id request_id socket]. rewrite ?Hid, ?Hsock, ?Hs.
      repeat split; reflexivity.
  - rewrite (send_request_none m p c w Hs).
    rewrite (send_request_none m p c' w Hsock).
    cbn [fst snd self world]. rewrite Hid, Hsock, Hs. repeat split; reflexivity.
Qed.

(** ** Construction *)

(** When [__init__] returns, the client object holds the arguments, an
    open socket and the counter 0; the port is a TCP port; one
    connection was made and nothing else happened on the wire; and the
    one line printed, if the client is verbose, says so. *)
Theorem init_connects_once (h : str) (pt : Z) (v : bool) (w : World) (st : state) :
  __init__ h pt v w = (Return tt, st) ->
  self st = connected h pt v
  /\ (0 <= pt <= 65535)%Z
  /\ wire (world st) = wire w ++ [EvConnect h pt true]
  /\ stderr (world st) = stderr w ++ (if v then [DiagConnected h pt] else []).
Proof.
  unfold __init__, _connect, try_except, bind, lift, socket_socket, get_self,
    set_socket, socket_connect, when, eprint, ret, raise.
  cbn [self world host port verbose socket].
  destruct (on_socket (net w)); cbn [self world host port verbose socket];
    [discriminate|].
  destruct (on_address (net w) h pt); cbn [self world host port verbose socket];
    [discriminate|].
  destruct ((pt <? 0) || (65535 <? pt))%bool%Z eqn:Hpt;
    cbn [self world host port verbose socket]; [discriminate|].
  apply orb_false_iff in Hpt. destruct Hpt as [H0 H1].
  apply Z.ltb_ge in H0, H1.
  destruct (on_connect (net w) h pt); cbn [self world host port verbose socket net];
    [discriminate|].
  destruct v; intros H; inversion H; subst;
    cbn [self world net wire stderr happen print];
    rewrite ?List.app_nil_r; repeat split; auto.
Qed.


(** ** The other typed operations *)

(** The request of a call whose parameters serialise at any depth (here:
    strings and [None] only) fails to serialise for the limits of the
    interpreter alone. *)
Lemma flat_request_json (id : Z) (m : str) (d : list (str * pyval)) (params_json : str) :
  (forall depth, dumps (S depth) (PyDict d) = Return params_json) ->
  request_json id m (Some d)
  = if exceeds_digits (int_digits id) || (dumps_depth <? 2) then
      (if exceeds_digits (int_digits id) then Raise ValueError else Raise RecursionError)
    else Return (request_text id m params_json).
Proof.
  intros Hd. rewrite request_json_cases.
  destruct (exceeds_digits (int_digits id)); [reflexivity|]. cbn [orb].
  generalize dumps_depth. intros [|[|depth]]; [reflexivity| |].
  - destruct d; reflexivity.
  - rewrite Hd. reflexivity.
Qed.

Lemma flat_request_payloads (id : Z) (m : str) (d : list (str * pyval))
      (params_json : str) :
  (forall depth, dumps (S depth) (PyDict d) = Return params_json) ->
  request_payloads id m (Some d)
  = if exceeds_digits (int_digits id) || (dumps_depth <? 2) then []
    else [List.map byte_of_N (request_text id m params_json) ++ [x0a]].
Proof.
  intros Hd. unfold request_payloads. rewrite (flat_request_json id m d params_json Hd).
  destruct (exceeds_digits (int_digits id) || (dumps_depth <? 2)).
  - destruct (exceeds_digits (int_digits id)); reflexivity.
  - rewrite line_of_bytes. reflexivity.
Qed.

(** [log_message], [clear_logs], [set_log_level] and [get_capabilities]
    each hand one line to [send] (none when the limits of the interpreter
    refuse the request): the method of the operation and its arguments
    under the keys of the wire protocol, in the order of the source;
    [get_capabilities] sends the empty object as parameters. *)
Theorem typed_operations_wire_format
        (logger_id level message : str) (c : Log4MCPClient) (w : World) :
  socket c = Some SockOpen ->
  let id := (request_id c + 1)%Z in
  let line (method_and_params : str) : list bytes :=
      if exceeds_digits (int_digits id) || (dumps_depth <? 2) then []
      else [List.map byte_of_N
              (qlit "{'jsonrpc': '2.0', 'id': '" ++ str_of_int id
               ++ qlit "', 'method': " ++ method_and_params ++ qlit "}")
            ++ [x0a]] in
  let q := encode_basestring_ascii in
  let after (call : M pyval) := sent (wire (world (snd (call {| self := c; world := w |})))) in
  after (log_message logger_id level message)
  = sent (wire w)
    ++ line (qlit "'log.message', 'params': {'loggerId': " ++ q logger_id
             ++ qlit ", 'level': " ++ q level
             ++ qlit ", 'message': " ++ q message ++ qlit "}")
  /\ after (clear_logs logger_id)
     = sent (wire w)
       ++ line (qlit "'log.clear', 'params': {'loggerId': " ++ q logger_id ++ qlit "}")
  /\ after (set_log_level logger_id level)
     = sent (wire w)
       ++ line (qlit "'log.setLevel', 'params': {'loggerId': " ++ q logger_id
                ++ qlit ", 'level': " ++ q level ++ qlit "}")
  /\ after get_capabilities
     = sent (wire w) ++ line (qlit "'system.capabilities', 'params': {}").
Proof.
  intros Hs id line q after. subst after q. cbv beta.
  assert (Hflat : forall m d pj,
             (forall depth, dumps (S depth) (PyDict d) = Return pj) ->
             sent (wire (world (snd (_send_request m (Some d) {| self := c; world := w |}))))
             = sent (wire w)
               ++ (if exceeds_digits (int_digits id) || (dumps_depth <? 2) then []
                   else [List.map byte_of_N (request_text id m pj) ++ [x0a]])).
  { intros m d pj Hd.
    destruct (send_request_open_effect m (Some d) c w Hs) as (r & w' & Hcall & _ & Hsent).
    rewrite Hcall. cbn [snd world]. rewrite Hsent.
    rewrite (flat_request_payloads _ m d pj Hd). reflexivity. }
  assert (Hstr : forall depth s, dumps depth (PyStr s) = Return (encode_basestring_ascii s))
    by (intros; apply dumps_str).
  split; [|split; [|split]].
  - unfold log_message. erewrite Hflat.
    2:{ intros depth. rewrite dumps_dict. cbn [map_result fst snd]. rewrite !Hstr.
        cbn [join]. reflexivity. }
    subst line. cbv beta.
    destruct (exceeds_digits (int_digits id) || (dumps_depth <? 2)); [reflexivity|].
    unfold request_text, qlit, lit, ch, encode_basestring_ascii. cbn. app_norm.
    reflexivity.
  - unfold clear_logs. erewrite Hflat.
    2:{ intros depth. rewrite dumps_dict. cbn [map_result fst snd]. rewrite !Hstr.
        cbn [join]. reflexivity. }
    subst line. cbv beta.
    destruct (exceeds_digits (int_digits id) || (dumps_depth <? 2)); [reflexivity|].
    unfold request_text, qlit, lit, ch, encode_basestring_ascii. cbn. app_norm.
    reflexivity.
  - unfold set_log_level. erewrite Hflat.
    2:{ intros depth. rewrite dumps_dict. cbn [map_result fst snd]. rewrite !Hstr.
        cbn [join]. reflexivity. }
    subst line. cbv beta.
    destruct (exceeds_digits (int_digits id) || (dumps_depth <? 2)); [reflexivity|].
    unfold request_text, qlit, lit, ch, encode_basestring_ascii. cbn. app_norm.
    reflexivity.
  - unfold get_capabilities.
    destruct (send_request_open_effect (lit "system.capabilities") None c w Hs)
      as (r & w' & Hcall & _ & Hsent).
    rewrite Hcall. cbn [snd world]. rewrite Hsent.
    unfold request_payloads. rewrite request_json_cases. fold id. subst line. cbv beta.
    destruct (exceeds_digits (int_digits id)); [reflexivity|]. cbn [orb].
    generalize dumps_depth. intros [|[|depth]]; try reflexivity.
    rewrite dumps_dict. cbn [map_result join]. rewrite line_of_bytes. reflexivity.
Qed.

(** ** What the response is checked against *)

(** The response is not correlated with the request: what a call returns
    or raises, once its request is sent, is decided by the first 4096
    bytes that the peer has for it and by nothing else; neither the id
    nor the method nor the parameters of the request, nor the bytes
    that the connection took of it, make a difference.  In particular a
    response that carries another id is returned like any other. *)
Theorem response_is_not_correlated
        (m m' : str) (p p' : option (list (str * pyval))) (c c' : Log4MCPClient)
        (w w' : World) (text text' : str) (k k' : nat) (data data' : bytes) :
  socket c = Some SockOpen -> socket c' = Some SockOpen ->
  request_json (request_id c + 1) m p = Return text ->
  request_json (request_id c' + 1) m' p' = Return text' ->
  on_send (net w) (clock w) (List.map byte_of_N text ++ [x0a]) = Sent k ->
  on_send (net w') (clock w') (List.map byte_of_N text' ++ [x0a]) = Sent k' ->
  on_recv (net w) (S (clock w)) = Received data ->
  on_recv (net w') (S (clock w')) = Received data' ->
  firstn 4096 data = firstn 4096 data' ->
  fst (_send_request m p {| self := c; world := w |})
  = fst (_send_request m' p' {| self := c'; world := w' |}).
Proof.
  intros Hs Hs' Hj Hj' Hsend Hsend' Hrecv Hrecv' Hdata.
  rewrite (send_request_open m p c w text Hs Hj).
  rewrite (send_request_open m' p' c' w' text' Hs' Hj'). cbv zeta.
  rewrite !line_of_bytes, Hsend, Hsend', Hrecv, Hrecv', Hdata. name_bufsize.
  destruct (decode (firstn bufsize data')) as [[|x t]|]; try reflexivity.
  destruct (loads (x :: t)); reflexivity.
Qed.

(** ** A response of white space *)

Lemma to_N_byte_of_N (c : N) : (c < 256)%N -> Byte.to_N (byte_of_N c) = c.
Proof.
  intros Hc. unfold byte_of_N. destruct (Byte.of_N c) as [b|] eqn:Hb.
  - apply Byte.to_of_N, Hb.
  - apply Byte.of_N_None_iff in Hb. lia.
Qed.

Lemma decode_ascii7 (s : str) :
  Forall ascii7 s -> decode (List.map byte_of_N s) = Some s.
Proof.
  unfold decode. induction 1 as [|c s Hc Hs IH]; [reflexivity|].
  unfold ascii7 in Hc. cbn [List.map utf8_decode_N].
  rewrite to_N_byte_of_N by lia.
  replace (c <? 128)%N with true by (symmetry; apply N.ltb_lt; exact Hc).
  rewrite IH. reflexivity.
Qed.

Lemma is_ws_cases (c : codepoint) :
  is_ws c = true -> c = 32%N \/ c = 9%N \/ c = 10%N \/ c = 13%N.
Proof.
  unfold is_ws. intros H.
  repeat (apply orb_true_iff in H; destruct H as [H|H]);
    apply N.eqb_eq in H; auto.
Qed.

Lemma blank_ascii7 (s : str) : blank s -> Forall ascii7 s.
Proof.
  apply Forall_impl. intros c Hc. unfold ascii7.
  destruct (is_ws_cases c Hc) as [->|[->|[->| ->]]]; lia.
Qed.

Lemma skip_ws_blank (s : str) : blank s -> skip_ws s = [].
Proof.
  induction 1 as [|c r Hc Hr IH]; simpl; [reflexivity|]. rewrite Hc. exact IH.
Qed.

Lemma scan_once_nil (depth : nat) : scan_once depth [] = PSyntax.
Proof. destruct depth; reflexivity. Qed.

Lemma loads_blank (s : str) : blank s -> loads s = Raise JSONDecodeError.
Proof.
  intros Hb. unfold loads. rewrite (skip_ws_blank s Hb), scan_once_nil.
  destruct s as [|c r]; [reflexivity|].
  inversion Hb as [|? ? Hc _]; subst.
  destruct (is_ws_cases c Hc) as [->|[->|[->| ->]]]; reflexivity.
Qed.

(** When the peer answers with white space only (for instance a bare
    line feed), the call does not take it for a closed connection: it
    raises [JSONDecodeError]. *)
Theorem blank_response_is_malformed
        (m : str) (p : option (list (str * pyval))) (c : Log4MCPClient) (w : World)
        (text : str) (k : nat) (ws : str) :
  socket c = Some SockOpen ->
  request_json (request_id c + 1) m p = Return text ->
  on_send (net w) (clock w) (List.map byte_of_N text ++ [x0a]) = Sent k ->
  on_recv (net w) (S (clock w)) = Received (List.map byte_of_N ws) ->
  blank ws -> ws <> [] -> List.length ws <= 4096 ->
  let r := fst (_send_request m p {| self := c; world := w |}) in
  r = Raise JSONDecodeError /\ r <> Raise ConnectionClosedError.
Proof.
  intros Hs Hj Hsend Hrecv Hb Hne Hlen r. subst r.
  rewrite (send_request_open m p c w text Hs Hj). cbv zeta.
  rewrite line_of_bytes, Hsend, Hrecv.
  rewrite List.firstn_all2 by (rewrite List.length_map; exact Hlen).
  rewrite (decode_ascii7 ws (blank_ascii7 ws Hb)).
  destruct ws as [|x t]; [contradiction|].
  rewrite (loads_blank (x :: t) Hb). cbn [fst]. split; [reflexivity | discriminate].
Qed.

(** ** The counter over the life of a client *)

Lemma close_keeps_counter (c : Log4MCPClient) (w : World) (s : sock) :
  socket c = Some s ->
  request_id (self (snd (close {| self := c; world := w |}))) = request_id c
  /\ exists s', socket (self (snd (close {| self := c; world := w |}))) = Some s'.
Proof.
  intros Hs. rewrite close_step, Hs.
  destruct s; [destruct (on_close (net w) (clock w))|];
    cbn [snd self closed_client request_id socket]; split; eauto.
Qed.

(** Once [__init__] has set the socket attribute, it is never unset, so
    every later call passes the guard and takes an id, whether it comes
    before or after a [close], and whether it succeeds or fails: after
    any run of calls and closes, the counter has gone up by the number
    of calls. *)
Theorem counter_counts_every_call (acts : list action) :
  forall (c : Log4MCPClient) (w : World) (s : sock),
    socket c = Some s ->
    request_id (self (run acts {| self := c; world := w |}))
    = (request_id c + Z.of_nat (calls_in acts))%Z.
Proof.
  induction acts as [|[k|] acts IH]; intros c w s Hs; cbn [run calls_in].
  - cbn [self]. lia.
  - rewrite perform_send_request.
    pose proof (send_request_takes_id (call_method k) (call_params k) c w s Hs) as Hn.
    destruct (_send_request (call_method k) (call_params k) {| self := c; world := w |})
      as [r [c1 w1]].
    cbn [snd self] in *. subst c1.
    rewrite (IH (next_id c) w1 s Hs). cbn [next_id request_id]. lia.
  - destruct (close_keeps_counter c w s Hs) as [Hid [s' Hs']].
    destruct (close {| self := c; world := w |}) as [r [c1 w1]].
    cbn [snd self] in *. rewrite (IH c1 w1 s' Hs'), Hid. lia.
Qed.

End Interpreter.

Arguments PyNone {pyfloat}.
Arguments PyBool {pyfloat} b.
Arguments PyInt {pyfloat} z.
Arguments PyFloat {pyfloat} f.
Arguments PyStr {pyfloat} s.
Arguments PyList {pyfloat} l.
Arguments PyDict {pyfloat} d.
Arguments Call {pyfloat} method params.
Arguments LogMessage {pyfloat} logger_id level message.
Arguments GetEntries {pyfloat} logger_id level.
Arguments ClearLogs {pyfloat} logger_id.
Arguments SetLogLevel {pyfloat} logger_id level.
Arguments GetCapabilities {pyfloat}.
Arguments Do {pyfloat} c.
Arguments Close {pyfloat}.

(** * Examples

    The properties above at concrete inputs, on the interpreter of the
    examples. *)

Abbreviation ex_send_request :=
  (_send_request example_float example_floatstr example_parse_float
                 example_digits example_depth example_depth) (only parsing).
Abbreviation ex_get_entries :=
  (get_entries example_float example_floatstr example_parse_float
               example_digits example_depth example_depth) (only parsing).
Abbreviation ex_perform_all :=
  (perform_all example_float example_floatstr example_parse_float
               example_digits example_depth example_depth) (only parsing).
Abbreviation ex_request_json :=
  (request_json example_float example_floatstr example_digits example_depth)
  (only parsing).

Abbreviation ex_log_message :=
  (log_message example_float example_floatstr example_parse_float
               example_digits example_depth example_depth) (only parsing).
Abbreviation ex_run :=
  (run example_float example_floatstr example_parse_float
       example_digits example_depth example_depth) (only parsing).

Lemma example_floatstr_printable (f : example_float) :
  Forall printable (example_floatstr f).
Proof.
  unfold example_floatstr, lit. simpl.
  repeat (apply Forall_cons; [unfold printable; lia|]). apply Forall_nil.
Qed.

Lemma request_ids_count_up_witness :
  let w := start (scripted 4096 [] None) in
  let cs := [LogMessage (lit "myapp") (lit "INFO") (lit "hello"); GetCapabilities] in
  let st := snd (__init__ (lit "localhost") 3000 false w) in
  __init__ (lit "localhost") 3000 false w = (Return tt, st)
  /\ sent (wire (world (snd (ex_perform_all cs st))))
     = [qblit "{'jsonrpc': '2.0', 'id': '1', 'method': 'log.message', 'params': {'loggerId': 'myapp', 'level': 'INFO', 'message': 'hello'}}"
        ++ [x0a];
        qblit "{'jsonrpc': '2.0', 'id': '2', 'method': 'system.capabilities', 'params': {}}"
        ++ [x0a]]
  /\ request_id (self (snd (ex_perform_all cs st))) = 2%Z.
Proof.
  intros w cs st. split; [reflexivity|].
  destruct (request_ids_count_up example_float example_floatstr example_parse_float
              example_digits example_depth example_depth example_floatstr_printable
              (lit "localhost") 3000%Z false w st cs eq_refl)
    as (per_call & Hsent & Hlen & Hnth & _ & Hcount).
  split; [|exact Hcount].
  pose proof (Hnth 0 _ eq_refl) as H0. pose proof (Hnth 1 _ eq_refl) as H1.
  destruct per_call as [|a [|b [|x per_call]]]; try discriminate Hlen.
  vm_compute in H0. vm_compute in H1.
  destruct H0 as [H0 _]. destruct H1 as [H1 _].
  injection H0 as ->. injection H1 as ->.
  rewrite Hsent. reflexivity.
Defined.

(** C1 as stated fails: a call whose parameters hold an [int] of 4301
    digits takes the id 1 and raises [ValueError] in [json.dumps], before
    anything is sent; the first id that reaches the wire is "2". *)
Lemma unserialisable_call_leaves_a_gap :
  let w := start (scripted 4096 [] None) in
  let cs := [Call (lit "log.count") (Some [(lit "n", PyInt (10 ^ 4300))]);
             GetCapabilities] in
  let st := snd (__init__ (lit "localhost") 3000 false w) in
  __init__ (lit "localhost") 3000 false w = (Return tt, st)
  /\ fst (ex_perform_all cs st) = [Raise ValueError; Raise ConnectionClosedError]
  /\ sent (wire (world (snd (ex_perform_all cs st))))
     = [qblit "{'jsonrpc': '2.0', 'id': '2', 'method': 'system.capabilities', 'params': {}}"
        ++ [x0a]]
  /\ request_id (self (snd (ex_perform_all cs st))) = 2%Z.
Proof.
  intros w cs st. split; [reflexivity|]. vm_compute. repeat split.
Qed.

Lemma call_after_close_takes_an_id_witness :
  let c := connected (lit "localhost") 3000 false in
  let w := start (scripted 4096 [] None) in
  socket c = Some SockOpen
  /\ fst (ex_send_request (lit "log.clear") None (snd (close {| self := c; world := w |})))
     = Raise (OSError EBADF)
  /\ request_id
       (self (snd (ex_send_request (lit "log.clear") None
                     (snd (close {| self := c; world := w |})))))
     = 1%Z.
Proof.
  intros c w. split; [reflexivity|].
  pose proof (call_after_close_takes_an_id example_float example_floatstr
                example_parse_float example_digits example_depth example_depth
                example_floatstr_printable (lit "log.clear") None c w eq_refl) as H.
  cbv zeta in H. destruct H as (H1 & _ & H3 & _). split; [exact H1 | exact H3].
Defined.

Lemma one_receive_after_send_witness :
  let c := connected (lit "localhost") 3000 false in
  let w := start (scripted 4096 [] None) in
  let text := qlit "{'jsonrpc': '2.0', 'id': '1', 'method': 'log.clear', 'params': {}}" in
  let line := List.map byte_of_N text ++ [x0a] in
  socket c = Some SockOpen
  /\ ex_request_json 1 (lit "log.clear") None = Return text
  /\ on_send (net w) (clock w) line = Sent 4096
  /\ (exists got,
         wire (world (snd (ex_send_request (lit "log.clear") None {| self := c; world := w |})))
         = wire w ++ [EvSend line (Some (Nat.min 4096 (List.length line))); EvRecv 4096 got])
  /\ fst (ex_send_request (lit "log.clear") None {| self := c; world := w |})
     = Raise ConnectionClosedError.
Proof.
  intros c w text line. split; [reflexivity|]. split; [reflexivity|].
  split; [reflexivity|].
  pose proof (one_receive_after_send example_float example_floatstr
                example_parse_float example_digits example_depth example_depth
                example_floatstr_printable (lit "log.clear") None c w text 4096
                eq_refl eq_refl eq_refl) as H.
  cbv zeta in H. destruct H as [H1 H2]. split; [exact H1|].
  exact (H2 [] eq_refl eq_refl).
Defined.




Lemma short_write_goes_unnoticed_witness :
  let c := connected (lit "localhost") 3000 false in
  let reply := qblit "{'jsonrpc':'2.0','id':'1','result':{}}" in
  let w := start (scripted 5 reply None) in
  let text := qlit "{'jsonrpc': '2.0', 'id': '1', 'method': 'log.clear', 'params': {}}" in
  let r := ex_send_request (lit "log.clear") None {| self := c; world := w |} in
  socket c = Some SockOpen
  /\ ex_request_json 1 (lit "log.clear") None = Return text
  /\ on_send (net w) (clock w) (List.map byte_of_N text ++ [x0a]) = Sent 5
  /\ 5 < List.length (List.map byte_of_N text ++ [x0a])
  /\ written (wire (world (snd r))) = [qblit "{'jso"]
  /\ fst r = Return (PyDict [(lit "jsonrpc", PyStr (lit "2.0"));
                             (lit "id", PyStr (lit "1"));
                             (lit "result", PyDict [])]).
Proof.
  intros c reply w text r.
  assert (Hk : 5 < List.length (List.map byte_of_N text ++ [x0a]))
    by (vm_compute; lia).
  split; [reflexivity|]. split; [reflexivity|]. split; [reflexivity|].
  split; [exact Hk|].
  pose proof (short_write_goes_unnoticed example_float example_floatstr
                example_parse_float example_digits example_depth example_depth
                example_floatstr_printable (lit "log.clear") None c w text 5
                eq_refl eq_refl eq_refl Hk) as H.
  cbv zeta in H. destruct H as (H1 & _ & _ & H4). split; [exact H1|].
  apply (H4 reply (qlit "{'jsonrpc':'2.0','id':'1','result':{}}"));
    [reflexivity | reflexivity | discriminate | reflexivity].
Defined.

Lemma get_entries_params_witness :
  let c := connected (lit "localhost") 3000 false in
  let w := start (scripted 4096 [] None) in
  socket c = Some SockOpen
  /\ sent (wire (world (snd (ex_get_entries (lit "myapp") None
                               {| self := c; world := w |}))))
     = [qblit "{'jsonrpc': '2.0', 'id': '1', 'method': 'log.getEntries', 'params': {'loggerId': 'myapp', 'level': null}}"
        ++ [x0a]].
Proof.
  intros c w. split; [reflexivity|].
  exact (proj1 (proj2 (get_entries_params example_float example_floatstr
                         example_parse_float example_digits example_depth example_depth
                         example_floatstr_printable (lit "myapp") None c w eq_refl))).
Defined.

Lemma failed_call_keeps_id_witness :
  let c := connected (lit "localhost") 3000 false in
  let w := start (scripted 4096 (blit "not json") None) in
  let r := ex_send_request (lit "log.clear") None {| self := c; world := w |} in
  socket c = Some SockOpen
  /\ r = (Raise JSONDecodeError, snd r)
  /\ request_id (self (snd r)) = 1%Z
  /\ request_id (self (snd (ex_send_request (lit "log.clear") None (snd r)))) = 2%Z
  /\ sent (wire (world (snd (ex_send_request (lit "log.clear") None (snd r)))))
     = sent (wire (world (snd r)))
       ++ [qblit "{'jsonrpc': '2.0', 'id': '2', 'method': 'log.clear', 'params': {}}"
           ++ [x0a]].
Proof.
  intros c w r. split; [reflexivity|]. split; [reflexivity|].
  pose proof (failed_call_keeps_id example_float example_floatstr
                example_parse_float example_digits example_depth example_depth
                example_floatstr_printable (lit "log.clear") None c w SockOpen
                JSONDecodeError (snd r) eq_refl eq_refl) as H.
  destruct H as [H1 H2]. split; [exact H1|].
  destruct (H2 (lit "log.clear") None) as (H3 & _ & H4). split; [exact H3|].
  exact (proj1 (H4 eq_refl
                   (qlit "{'jsonrpc': '2.0', 'id': '2', 'method': 'log.clear', 'params': {}}")
                   eq_refl)).
Defined.


Lemma errors_are_reported_witness :
  let c := connected (lit "localhost") 3000 true in
  let w := start (scripted 4096 (blit "not json") None) in
  let text := qlit "{'jsonrpc': '2.0', 'id': '1', 'method': 'log.clear', 'params': {}}" in
  let r := ex_send_request (lit "log.clear") None {| self := c; world := w |} in
  socket c = Some SockOpen
  /\ ex_request_json 1 (lit "log.clear") None = Return text
  /\ stderr (world (snd r))
     = [DiagRequest text; DiagResponse (lit "not json"); DiagSendError JSONDecodeError].
Proof.
  intros c w text r. split; [reflexivity|]. split; [reflexivity|].
  destruct (errors_are_reported example_float example_floatstr
              example_parse_float example_digits example_depth example_depth
              example_floatstr_printable (lit "log.clear") None c w SockOpen text
              eq_refl eq_refl) as (traces & _ & _ & H).
  reflexivity.
Defined.

Lemma verbose_is_only_diagnostic_witness :
  let c := connected (lit "localhost") 3000 false in
  let w := start (scripted 4096 (blit "{}") None) in
  fst (ex_send_request (lit "log.clear") None {| self := with_verbose true c; world := w |})
  = fst (ex_send_request (lit "log.clear") None {| self := c; world := w |})
  /\ wire (world (snd (ex_send_request (lit "log.clear") None
                         {| self := with_verbose true c; world := w |})))
     = wire (world (snd (ex_send_request (lit "log.clear") None
                           {| self := c; world := w |}))).
Proof.
  intros c w.
  pose proof (verbose_is_only_diagnostic example_float example_floatstr
                example_parse_float example_digits example_depth example_depth
                example_floatstr_printable (lit "log.clear") None c w true) as H.
  cbv zeta in H. destruct H as (H1 & H2 & _). split; [exact H1 | exact H2].
Defined.

Lemma init_connects_once_witness :
  let w := start (scripted 4096 [] None) in
  let st := snd (__init__ (lit "localhost") 3000 true w) in
  __init__ (lit "localhost") 3000 true w = (Return tt, st)
  /\ wire (world st) = [EvConnect (lit "localhost") 3000 true]
  /\ stderr (world st) = [DiagConnected (lit "localhost") 3000].
Proof.
  intros w st. split; [reflexivity|].
  destruct (init_connects_once (lit "localhost") 3000 true w st eq_refl)
    as (_ & _ & H3 & H4).
  split; [exact H3 | exact H4].
Defined.


Lemma typed_operations_wire_format_witness :
  let c := connected (lit "localhost") 3000 false in
  let w := start (scripted 4096 [] None) in
  socket c = Some SockOpen
  /\ sent (wire (world (snd (ex_log_message (lit "myapp") (lit "INFO") (lit "hello")
                               {| self := c; world := w |}))))
     = [qblit "{'jsonrpc': '2.0', 'id': '1', 'method': 'log.message', 'params': {'loggerId': 'myapp', 'level': 'INFO', 'message': 'hello'}}"
        ++ [x0a]].
Proof.
  intros c w. split; [reflexivity|].
  exact (proj1 (typed_operations_wire_format example_float example_floatstr
                  example_parse_float example_digits example_depth example_depth
                  example_floatstr_printable (lit "myapp") (lit "INFO") (lit "hello")
                  c w eq_refl)).
Defined.

Lemma response_is_not_correlated_witness :
  let c := connected (lit "localhost") 3000 false in
  let reply := qblit "{'jsonrpc':'2.0','id':'7','result':{}}" in
  let w := start (scripted 4096 reply None) in
  let text := qlit "{'jsonrpc': '2.0', 'id': '1', 'method': 'log.clear', 'params': {}}" in
  let text' :=
      qlit "{'jsonrpc': '2.0', 'id': '2', 'method': 'system.capabilities', 'params': {}}" in
  socket c = Some SockOpen /\ socket (next_id c) = Some SockOpen
  /\ ex_request_json 1 (lit "log.clear") None = Return text
  /\ ex_request_json 2 (lit "system.capabilities") None = Return text'
  /\ fst (ex_send_request (lit "system.capabilities") None
            {| self := next_id c; world := w |})
     = fst (ex_send_request (lit "log.clear") None {| self := c; world := w |})
  /\ fst (ex_send_request (lit "log.clear") None {| self := c; world := w |})
     = Return (PyDict [(lit "jsonrpc", PyStr (lit "2.0"));
                       (lit "id", PyStr (lit "7"));
                       (lit "result", PyDict [])]).
Proof.
  intros c reply w text text'. do 4 (split; [reflexivity|]).
  split; [|reflexivity].
  symmetry.
  exact (response_is_not_correlated example_float example_floatstr
           example_parse_float example_digits example_depth example_depth
           example_floatstr_printable (lit "log.clear") (lit "system.capabilities")
           None None c (next_id c) w w text text' 4096 4096 reply reply
           eq_refl eq_refl eq_refl eq_refl eq_refl eq_refl eq_refl eq_refl eq_refl).
Defined.

Lemma blank_response_is_malformed_witness :
  let c := connected (lit "localhost") 3000 false in
  let w := start (scripted 4096 [x0a] None) in
  let text := qlit "{'jsonrpc': '2.0', 'id': '1', 'method': 'log.clear', 'params': {}}" in
  socket c = Some SockOpen
  /\ ex_request_json 1 (lit "log.clear") None = Return text
  /\ on_recv (net w) (S (clock w)) = Received (List.map byte_of_N [LF])
  /\ blank [LF]
  /\ fst (ex_send_request (lit "log.clear") None {| self := c; world := w |})
     = Raise JSONDecodeError.
Proof.
  intros c w text.
  assert (Hb : blank [LF]) by (repeat constructor).
  assert (Hne : [LF] <> []) by discriminate.
  assert (Hlen : List.length [LF] <= 4096) by (cbn [List.length]; lia).
  split; [reflexivity|]. split; [reflexivity|]. split; [reflexivity|].
  split; [exact Hb|].
  exact (proj1 (blank_response_is_malformed example_float example_floatstr
                  example_parse_float example_digits example_depth example_depth
                  example_floatstr_printable (lit "log.clear") None c w text 4096 [LF]
                  eq_refl eq_refl eq_refl eq_refl Hb Hne Hlen)).
Defined.

Lemma counter_counts_every_call_witness :
  let c := connected (lit "localhost") 3000 false in
  let w := start (scripted 4096 [] None) in
  let acts := [Do (ClearLogs (lit "myapp")); Close; Do GetCapabilities; Close;
               Do (GetEntries (lit "myapp") None)] in
  socket c = Some SockOpen
  /\ request_id (self (ex_run acts {| self := c; world := w |})) = 3%Z.
Proof.
  intros c w acts. split; [reflexivity|].
  exact (counter_counts_every_call example_float example_floatstr
           example_parse_float example_digits example_depth example_depth
           example_floatstr_printable acts c w SockOpen eq_refl).
Defined.
